(** * The plot command of the key-value store benchmark

    A shallow embedding of the log reader ([processFile]), the grouping of
    runs by configuration ([Run]) and the chart assembly ([renderPlot],
    [makeLineData], [renderData]) of the [plot] command, followed by the
    properties of those functions.

    Conventions of the embedding:
    - Go's [int] and [time.Duration] are integers ([Z]); [float64] is the
      binary64 type [PrimFloat.float]; values are only moved around, never
      computed with.
    - A function that returns an [errors.E] returns [result A], the sum of
      [error] and [A]; a run-time panic (index out of range) is the error
      [IndexOutOfRange], so that its absence is a theorem and not an
      assumption.
    - A Go map is a [gmap]; [m !!! k] is Go's [m[k]] (the zero value, a nil
      slice, for a missing key).
    - The JSON decoder is the stream of its results, one [option logEntry.t]
      per call of [Decode] ([None]: the record is malformed); the end of the
      list is [io.EOF]. *)

From Stdlib Require Import ZArith Floats.PrimFloat.
From stdpp Require Import gmap strings list fin_maps sorting.

Abbreviation float64 := PrimFloat.float.

(** ** Go's [time] package, as far as the plotter uses it

    A [time.Time] obtained from [time.Parse] carries no monotonic clock
    reading, so [IsZero] and [Sub] depend on its instant alone: the number of
    nanoseconds since January 1, year 1, 00:00:00 UTC. The zero value of
    [time.Time] is that instant. [Sub] saturates at the largest and smallest
    [Duration]; the quotient of two [Duration]s is Go's [int64] division. *)
Module time.

Definition Time : Type := Z.
Definition Duration : Type := Z.

Definition minDuration : Duration := (- 2 ^ 63)%Z.
Definition maxDuration : Duration := (2 ^ 63 - 1)%Z.

Definition zero : Time := 0%Z.

Definition IsZero (t : Time) : bool := bool_decide (t = 0%Z).

Definition Sub (t u : Time) : Duration :=
  let d := (t - u)%Z in
  if bool_decide (d < minDuration)%Z then minDuration
  else if bool_decide (maxDuration < d)%Z then maxDuration
  else d.

Definition wrap64 (z : Z) : Z := ((z + 2 ^ 63) `mod` 2 ^ 64 - 2 ^ 63)%Z.

(** [d / u] on [int64]: truncated toward zero, wrapping on overflow. *)
Definition Div (d u : Duration) : Duration := wrap64 (d `quot` u).

End time.

(** ** Errors *)

Inductive error : Type :=
  | OpenError (path : string)      (* os.Open failed *)
  | DecodeError                    (* decoder.Decode failed, not with io.EOF *)
  | TimestampError (value : string) (* time.Parse failed *)
  | DuplicateMarker                (* duplicate running message in logs *)
  | MissingMarker                  (* missing running message in logs *)
  | CreateError (path : string)    (* os.Create failed *)
  | RenderError                    (* page.Render failed *)
  | IndexOutOfRange.               (* run-time panic *)

Abbreviation result := (sum error).

#[global] Instance result_ret : MRet result := λ A x, inr x.
#[global] Instance result_bind : MBind result := λ A B f r,
  match r with
  | inl e => inl e
  | inr x => f x
  end.

(** ** The data of the plotter *)

Module logEntry.
Record t : Type := mk {
  Level : string;
  Message : string;
  Time : string;
  Engine : string;
  Writers : Z;
  Readers : Z;
  Size : Z;
  Vary : bool;
  Timestamp : string;
  Max : float64;
  Mean : float64;
  Min : float64;
  Count : Z;
  Rate : float64
}.

(** The value of [var entry logEntry] before [Decode] fills it. *)
Definition empty : t :=
  mk "" "" "" "" 0 0 0 false "" 0%float 0%float 0%float 0 0%float.
End logEntry.

Module plotConfig.
Record t : Type := mk {
  Writers : Z;
  Readers : Z;
  Size : Z;
  Vary : bool
}.

Definition empty : t := mk 0 0 0 false.

#[global] Instance eq_dec : EqDecision t.
Proof. solve_decision. Defined.

Definition to_tuple (c : t) : Z * Z * Z * bool :=
  (Writers c, Readers c, Size c, Vary c).
Definition of_tuple (p : Z * Z * Z * bool) : t :=
  let '(w, r, s, v) := p in mk w r s v.

#[global] Instance countable : Countable t.
Proof. apply (inj_countable' to_tuple of_tuple). by intros []. Defined.
End plotConfig.

Module plotMeasurements.
Record t : Type := mk {
  Engine : string;
  Config : plotConfig.t;
  Timestamps : list time.Duration;
  Data : gmap string (list (list float64))
}.

(** [&plotMeasurements{Data: make(map[string][][]float64)}] *)
Definition empty : t := mk "" plotConfig.empty [] ∅.

Definition setTimestamps (ts : list time.Duration) (m : t) : t :=
  mk (Engine m) (Config m) ts (Data m).
Definition setData (d : gmap string (list (list float64))) (m : t) : t :=
  mk (Engine m) (Config m) (Timestamps m) d.
Definition setMarker (engine : string) (c : plotConfig.t) (m : t) : t :=
  mk engine c (Timestamps m) (Data m).

(** [m.Data[name] = append(m.Data[name], row)] *)
Definition appendData (name : string) (row : list float64) (m : t) : t :=
  setData (<[name := (Data m !!! name) ++ [row]]> (Data m)) m.
End plotMeasurements.

(** The command's arguments. *)
Module Plot.
Record t : Type := mk {
  Files : list string;
  Output : string;
  Assets : string
}.
End Plot.

(** What the command finds outside itself: the decoded content of each
    readable file ([os.Open] fails on the others), and whether creating and
    rendering into the output file succeed. *)
Module World.
Record t : Type := mk {
  files : gmap string (list (option logEntry.t));
  createOk : string → bool;
  renderOk : bool
}.
End World.

(** ** Reading one log file *)

(** The layout handed to [time.Parse]. *)
Definition timestampLayout : string := "2006-01-02 15:04:05.999999999 -0700 MST".

(** The variables of the decode loop: the measurements under construction
    and [start], the baseline of the elapsed offsets. *)
Record loopState : Type := mkLoop {
  measurements : plotMeasurements.t;
  start : time.Time
}.

Definition initialState : loopState := mkLoop plotMeasurements.empty time.zero.

Section ProcessFile.

(** [time.Parse layout value], [None] when it reports an error. *)
Variable time_Parse : string → string → option time.Time.

(** Lines 183-197: the elapsed offset of a timestamped record. *)
Definition recordTimestamp (st : loopState) (entry : logEntry.t) : result loopState :=
  if bool_decide (logEntry.Timestamp entry ≠ "") then
    match time_Parse timestampLayout (logEntry.Timestamp entry) with
    | None => inl (TimestampError (logEntry.Timestamp entry))
    | Some timestamp =>
        let m := measurements st in
        if time.IsZero (start st) then
          inr (mkLoop
                 (plotMeasurements.setTimestamps
                    (plotMeasurements.Timestamps m ++ [0%Z]) m)
                 timestamp)
        else
          let sinceStart := time.Sub timestamp (start st) in
          match last (plotMeasurements.Timestamps m) with
          | None => inl IndexOutOfRange
          | Some latest =>
              if bool_decide (latest ≠ sinceStart) then
                inr (mkLoop
                       (plotMeasurements.setTimestamps
                          (plotMeasurements.Timestamps m ++ [sinceStart]) m)
                       (start st))
              else inr st
          end
    end
  else inr st.

(** Lines 199-221: the switch on the record's message. *)
Definition recordMessage (m : plotMeasurements.t) (entry : logEntry.t)
  : result plotMeasurements.t :=
  let msg := logEntry.Message entry in
  if bool_decide (msg = "running") then
    if bool_decide (plotMeasurements.Engine m ≠ "") then inl DuplicateMarker
    else
      inr (plotMeasurements.setMarker (logEntry.Engine entry)
             (plotConfig.mk (logEntry.Writers entry) (logEntry.Readers entry)
                (logEntry.Size entry) (logEntry.Vary entry)) m)
  else if bool_decide (msg = "counter get") then
    inr (plotMeasurements.appendData "get rate" [logEntry.Rate entry] m)
  else if bool_decide (msg = "counter set") then
    inr (plotMeasurements.appendData "set rate" [logEntry.Rate entry] m)
  else if bool_decide (msg = "sample get.ready") then
    inr (plotMeasurements.appendData "get ready"
           [logEntry.Mean entry; logEntry.Min entry; logEntry.Max entry] m)
  else if bool_decide (msg = "sample get.first") then
    inr (plotMeasurements.appendData "get first"
           [logEntry.Mean entry; logEntry.Min entry; logEntry.Max entry] m)
  else if bool_decide (msg = "sample get.total") then
    inr (plotMeasurements.appendData "get total"
           [logEntry.Mean entry; logEntry.Min entry; logEntry.Max entry] m)
  else if bool_decide (msg = "sample set") then
    inr (plotMeasurements.appendData "set"
           [logEntry.Mean entry; logEntry.Min entry; logEntry.Max entry] m)
  else inr m.

(** One turn of the loop on a decoded record. *)
Definition processEntry (st : loopState) (entry : logEntry.t) : result loopState :=
  st' ← recordTimestamp st entry;
  m ← recordMessage (measurements st') entry;
  mret (mkLoop m (start st')).

(** Lines 174-222: the loop, until [io.EOF] or the first error. *)
Fixpoint decodeLoop (stream : list (option logEntry.t)) (st : loopState)
  : result loopState :=
  match stream with
  | [] => inr st
  | None :: _ => inl DecodeError
  | Some entry :: rest =>
      match processEntry st entry with
      | inl e => inl e
      | inr st' => decodeLoop rest st'
      end
  end.

(** Lines 228-233: the common length. *)
Definition reconcileLength (m : plotMeasurements.t) : nat :=
  map_fold
    (λ (_ : string) (values : list (list float64)) (length : nat),
       if bool_decide (List.length values < length) then List.length values
       else length)
    (length (plotMeasurements.Timestamps m))
    (plotMeasurements.Data m).

(** Lines 235-238: every sequence cut to the common length. *)
Definition reconcile (m : plotMeasurements.t) : plotMeasurements.t :=
  let length := reconcileLength m in
  plotMeasurements.mk (plotMeasurements.Engine m) (plotMeasurements.Config m)
    (take length (plotMeasurements.Timestamps m))
    (take length <$> plotMeasurements.Data m).

Definition processFile (w : World.t) (path : string) : result plotMeasurements.t :=
  match World.files w !! path with
  | None => inl (OpenError path)
  | Some stream =>
      st ← decodeLoop stream initialState;
      if bool_decide (plotMeasurements.Engine (measurements st) = "") then
        inl MissingMarker
      else inr (reconcile (measurements st))
  end.

End ProcessFile.

(** ** The chart description handed to the charting library

    The records keep the fields the plotter sets; every other field of the
    library's structures stays at its zero value. A call of [fmt.Sprintf] is
    kept as its format and arguments. *)

Inductive fmtArg : Type :=
  | ArgInt (n : Z)                 (* an int under %d *)
  | ArgBool (b : bool)             (* a bool under %t *)
  | ArgString (s : string)         (* a string under %s *)
  | ArgByteSize (n : Z)            (* datasize.ByteSize(n) under %s *)
  | ArgUnit (d : time.Duration).   (* d.String() with every 1 removed, under %s *)

Record Sprintf : Type := mkSprintf {
  format : string;
  args : list fmtArg
}.

(** [types.FuncStr]: JavaScript source marked by [opts.FuncOpts]. *)
Inductive FuncStr : Type := FuncOpts (fn : string).

Module types.
Definition ChartLine : string := "line".
Definition ChartCustom : string := "custom".
End types.

(** An element of a point's [[]interface{}]. *)
Inductive pointValue : Type :=
  | VDuration (d : time.Duration)
  | VFloat (v : float64).

Module LineData.
Record t : Type := mk { Value : list pointValue }.
End LineData.

Module YAxis.
Record t : Type := mk {
  Name : string;
  NameLocation : string;
  Type_ : string;
  NameGap : Z
}.
End YAxis.

Module XAxis.
Record t : Type := mk {
  Name : Sprintf;
  NameLocation : string;
  Type_ : string;
  NameGap : Z
}.
End XAxis.

Module ToolBoxFeatureUserDefined.
Record t : Type := mk {
  Show : bool;
  Title : string;
  Icon : string;
  OnClick : FuncStr
}.
End ToolBoxFeatureUserDefined.

Module Toolbox.
Record t : Type := mk {
  Show : bool;
  RestoreShow : bool;               (* Feature.Restore.Show *)
  UserDefined : gmap string ToolBoxFeatureUserDefined.t   (* Feature.UserDefined *)
}.
End Toolbox.

Module Title.
Record t : Type := mk {
  Title : string;
  Subtitle : Sprintf
}.
End Title.

Module Grid.
Record t : Type := mk { Top : string; Left : string; Right : string }.
End Grid.

Module Legend.
Record t : Type := mk { Show : bool; Left : string; Right : string }.
End Legend.

Module Encode.
Record t : Type := mk { X : list Z; Y : list Z }.
End Encode.

Module ItemStyle.
Record t : Type := mk { BorderWidth : float64 }.
End ItemStyle.

Module SingleSeries.
Record t : Type := mk {
  Name : string;
  Type_ : string;
  Data : list LineData.t;
  RenderItem : option FuncStr;
  Encode : option Encode.t;
  ItemStyle : option ItemStyle.t;
  Smooth : bool
}.

(** What [Line.AddSeries name data] appends before its options run. *)
Definition line (name : string) (data : list LineData.t) : t :=
  mk name types.ChartLine data None None None false.

Definition setSmooth (b : bool) (s : t) : t :=
  mk (Name s) (Type_ s) (Data s) (RenderItem s) (Encode s) (ItemStyle s) b.
End SingleSeries.

Module Line.
Record t : Type := mk {
  YAxis : YAxis.t;
  Toolbox : option Toolbox.t;
  Title : Title.t;
  Grid : Grid.t;
  XAxis : XAxis.t;
  Legend : Legend.t;
  MultiSeries : list SingleSeries.t
}.
End Line.

Module Page.
Record t : Type := mk {
  Layout : string;
  PageTitle : string;
  AssetsHost : string;
  Charts : list Line.t
}.
End Page.

(** [strings.Contains s substr] *)
Fixpoint strings_Contains (s substr : string) : bool :=
  String.prefix substr s ||
  match s with
  | EmptyString => false
  | String _ s' => strings_Contains s' substr
  end.

(** ** The scripts emitted into the page

    [renderErrorBars] draws one whisker: a vertical line between the values
    of dimensions 2 and 3 at the x of dimension 0, with a cap at each end.
    [toggleErrorBars] visits every series of the chart: a series of type
    custom whose renderItem is null gets the whisker renderer, one that has
    a renderer gets null, any other series is left as it is. *)

Definition renderErrorBars : string := "
function (params, api) {
	var xValue = api.value(0);
	var maxPoint = api.coord([xValue, api.value(2)]);
	var minPoint = api.coord([xValue, api.value(3)]);
	var halfWidth = 5;
	var style = api.style({
		stroke: api.visual('color'),
		fill: undefined
	});
	return {
		type: 'group',
		children: [
			{
				type: 'line',
				transition: ['shape'],
				shape: {
					x1: maxPoint[0] - halfWidth,
					y1: maxPoint[1],
					x2: maxPoint[0] + halfWidth,
					y2: maxPoint[1]
				},
				style: style
			},
			{
				type: 'line',
				transition: ['shape'],
				shape: {
					x1: maxPoint[0],
					y1: maxPoint[1],
					x2: minPoint[0],
					y2: minPoint[1]
				},
				style: style
			},
			{
				type: 'line',
				transition: ['shape'],
				shape: {
					x1: minPoint[0] - halfWidth,
					y1: minPoint[1],
					x2: minPoint[0] + halfWidth,
					y2: minPoint[1]
				},
				style: style
			}
		]
	};
}
".

Definition toggleErrorBars : string :=
  "
function (){
	const chart = this.ecModel.scheduler.ecInstance;
	const series = [];
	for (const s of chart.getOption().series) {
		if (s.type === 'custom') {
			if (s.renderItem === null) {
				series.push({renderItem: " +:+ renderErrorBars +:+ "})
			} else {
				series.push({renderItem: null});
			}
		} else {
			series.push({});
		}
	}
	chart.setOption({series: series});
}
".

Definition errorBarsIcon : string :=
  "path://M 11.359041,7.5285047 V 4.5670261 H 2.4746032 v 2.9614786 h 2.9614791 c -0.021137,11.0157323 0,11.0155383 0,20.7303553 H 2.4746032 v 2.961479 H 11.359041 V 28.25886 H 8.397562 c 0.165371,-14.351131 0,0 0,-20.7303553 z M 26.856729,4.3174113 V 1.3559322 h -8.884437 v 2.9614791 h 2.96148 V 22.086287 h -2.96148 v 2.961478 h 8.884437 v -2.961478 h -2.961478 c 0,-17.7688757 0,0 0,-17.7688757 z".

(** The toggle script on one series, read on the fields the page carries. *)
Definition toggleSeries (s : SingleSeries.t) : SingleSeries.t :=
  if bool_decide (SingleSeries.Type_ s = types.ChartCustom) then
    match SingleSeries.RenderItem s with
    | None =>
        SingleSeries.mk (SingleSeries.Name s) (SingleSeries.Type_ s)
          (SingleSeries.Data s) (Some (FuncOpts renderErrorBars))
          (SingleSeries.Encode s) (SingleSeries.ItemStyle s)
          (SingleSeries.Smooth s)
    | Some _ =>
        SingleSeries.mk (SingleSeries.Name s) (SingleSeries.Type_ s)
          (SingleSeries.Data s) None
          (SingleSeries.Encode s) (SingleSeries.ItemStyle s)
          (SingleSeries.Smooth s)
    end
  else s.

(** A series the page draws nothing for: a custom series without renderer,
    the state [toggleErrorBars] switches error bars off with. *)
Definition seriesHidden (s : SingleSeries.t) : bool :=
  bool_decide (SingleSeries.Type_ s = types.ChartCustom) &&
  bool_decide (SingleSeries.RenderItem s = None).

(** ** Assembling the charts *)

Section Render.

(** The display time unit, a [time.Duration] constant of the package that is
    declared outside the files at hand. Go refuses to compile a division by
    a constant zero, so the constant is not zero; no property below needs
    that. *)
Variable dataIntervalUnit : time.Duration.

(** Lines 135-145. [from] is the index [i] of the row at the head of [data]. *)
Fixpoint makeLineDataFrom (from : nat) (timestamps : list time.Duration)
    (data : list (list float64)) : result (list LineData.t) :=
  match data with
  | [] => inr []
  | values :: rest =>
      match timestamps !! from with
      | None => inl IndexOutOfRange
      | Some t =>
          points ← makeLineDataFrom (S from) timestamps rest;
          mret (LineData.mk (VDuration (time.Div t dataIntervalUnit)
                             :: (VFloat <$> values)) :: points)
      end
  end.

Definition makeLineData (timestamps : list time.Duration)
    (data : list (list float64)) : result (list LineData.t) :=
  makeLineDataFrom 0 timestamps data.

(** The second series of a latency chart (lines 334-343). *)
Definition errorBarSeries (engine : string) (data : list LineData.t)
  : SingleSeries.t :=
  SingleSeries.mk engine types.ChartCustom data
    (Some (FuncOpts renderErrorBars))
    (Some (Encode.mk [0%Z] [2%Z; 3%Z]))
    (Some (ItemStyle.mk 1.5%float))
    false.

(** Lines 330-345: the series of every run, in the order of the runs. *)
Fixpoint addAllSeries (name : string) (allMeasurements : list plotMeasurements.t)
    (series : list SingleSeries.t) : result (list SingleSeries.t) :=
  match allMeasurements with
  | [] => inr series
  | m :: rest =>
      data ← makeLineData (plotMeasurements.Timestamps m)
               (plotMeasurements.Data m !!! name);
      let series := series ++ [SingleSeries.line (plotMeasurements.Engine m) data] in
      let series :=
        if negb (strings_Contains name "rate") then
          series ++ [errorBarSeries (plotMeasurements.Engine m) data]
        else series in
      addAllSeries name rest series
  end.

Definition rateYAxis : YAxis.t := YAxis.mk "ops/s" "center" "value" 50.
Definition durationYAxis : YAxis.t := YAxis.mk "duration (ms)" "center" "value" 50.

Definition errorBarsToolbox : Toolbox.t :=
  Toolbox.mk true true
    {[ "myErrorBars" :=
         ToolBoxFeatureUserDefined.mk true "Toggle error bars" errorBarsIcon
           (FuncOpts toggleErrorBars) ]}.

Definition subtitleFormat : string := "writers=%d readers=%d size=%s vary=%t
%s".

(** Lines 268-350. *)
Definition renderPlot (config : plotConfig.t) (name : string)
    (allMeasurements : list plotMeasurements.t) : result Line.t :=
  let '(yAxis, toolbox, better) :=
    if strings_Contains name "rate" then
      (rateYAxis, None, "higher is better")
    else
      (durationYAxis, Some errorBarsToolbox, "lower is better") in
  series ← addAllSeries name allMeasurements [];
  mret (Line.mk yAxis toolbox
          (Title.mk name
             (mkSprintf subtitleFormat
                [ArgInt (plotConfig.Writers config);
                 ArgInt (plotConfig.Readers config);
                 ArgByteSize (plotConfig.Size config);
                 ArgBool (plotConfig.Vary config);
                 ArgString better]))
          (Grid.mk "75" "8%" "2%")
          (XAxis.mk (mkSprintf "duration (%s)" [ArgUnit dataIntervalUnit])
             "center" "value" 30)
          (Legend.mk true "280" "140")
          (SingleSeries.setSmooth true <$> series)).

(** The metrics, in the order [renderData] charts them. *)
Definition metricNames : list string :=
  ["get rate"; "set rate"; "get ready"; "get first"; "get total"; "set"].

Fixpoint renderMetrics (config : plotConfig.t) (names : list string)
    (allMeasurements : list plotMeasurements.t) : result (list Line.t) :=
  match names with
  | [] => inr []
  | name :: rest =>
      plot ← renderPlot config name allMeasurements;
      plots ← renderMetrics config rest allMeasurements;
      mret (plot :: plots)
  end.

Fixpoint renderGroups (groups : list (plotConfig.t * list plotMeasurements.t))
  : result (list Line.t) :=
  match groups with
  | [] => inr []
  | (config, allMeasurements) :: rest =>
      plots ← renderMetrics config metricNames allMeasurements;
      more ← renderGroups rest;
      mret (plots ++ more)
  end.

(** What happens to the output file. *)
Inductive sinkEvent : Type :=
  | Created (path : string)                 (* os.Create *)
  | Rendered (path : string) (page : Page.t). (* page.Render on the created file *)

(** Lines 243-266. Go visits the groups in an unspecified order; the
    embedding takes the order of [map_to_list], and no property below
    depends on it: what is said of the charts of a page is said up to the
    order of the groups. The result is the error returned ([None] for nil)
    and what was done to the output file. *)
Definition renderData (w : World.t) (p : Plot.t)
    (data : gmap plotConfig.t (list plotMeasurements.t))
  : option error * list sinkEvent :=
  match renderGroups (map_to_list data) with
  | inl e => (Some e, [])
  | inr plots =>
      let page := Page.mk "flex" "Results" (Plot.Assets p) plots in
      if World.createOk w (Plot.Output p) then
        (if World.renderOk w then None else Some RenderError,
         [Created (Plot.Output p); Rendered (Plot.Output p) page])
      else (Some (CreateError (Plot.Output p)), [])
  end.

(** Lines 148-156: the runs of the files, grouped by configuration. *)
Variable time_Parse : string → string → option time.Time.

Fixpoint groupFiles (w : World.t) (paths : list string)
    (data : gmap plotConfig.t (list plotMeasurements.t))
  : result (gmap plotConfig.t (list plotMeasurements.t)) :=
  match paths with
  | [] => inr data
  | path :: rest =>
      m ← processFile time_Parse w path;
      groupFiles w rest
        (<[plotMeasurements.Config m :=
             (data !!! plotMeasurements.Config m) ++ [m]]> data)
  end.

(** Lines 147-159. *)
Definition Run (w : World.t) (p : Plot.t) : option error * list sinkEvent :=
  match groupFiles w (Plot.Files p) ∅ with
  | inl e => (Some e, [])
  | inr data => renderData w p data
  end.

End Render.

(** ** Sample logs

    Timestamps as the benchmark writes them, with the instants Go's
    [time.Parse] gives them (nanoseconds since January 1, year 1, UTC), and
    small logs built from them. *)
Module Samples.

Definition t0 : time.Time := 63833832000000000000%Z.

Definition timestamps : list (string * time.Time) :=
  [ ("0001-01-01 00:00:00 +0000 UTC", 0%Z);
    ("2023-10-25 12:00:00 +0000 UTC", t0);
    ("2023-10-25 12:00:01 +0000 UTC", (t0 + 1000000000)%Z);
    ("2023-10-25 12:00:02 +0000 UTC", (t0 + 2000000000)%Z);
    ("2023-10-25 12:00:03 +0000 UTC", (t0 + 3000000000)%Z);
    ("2023-10-25 12:00:04 +0000 UTC", (t0 + 4000000000)%Z) ].

(** [time.Parse] on the timestamps above; anything else is refused. *)
Definition parse (layout value : string) : option time.Time :=
  if bool_decide (layout = timestampLayout) then
    snd <$> List.find (λ p, bool_decide (p.1 = value)) timestamps
  else None.

Definition at0 : string := "2023-10-25 12:00:00 +0000 UTC".
Definition at1 : string := "2023-10-25 12:00:01 +0000 UTC".
Definition at2 : string := "2023-10-25 12:00:02 +0000 UTC".
Definition at3 : string := "2023-10-25 12:00:03 +0000 UTC".
Definition at4 : string := "2023-10-25 12:00:04 +0000 UTC".
Definition atZero : string := "0001-01-01 00:00:00 +0000 UTC".

Definition running (engine : string) (writers readers size : Z) (vary : bool)
  : option logEntry.t :=
  Some (logEntry.mk "info" "running" "" engine writers readers size vary ""
          0%float 0%float 0%float 0 0%float).

Definition counter (message timestamp : string) (rate : float64)
  : option logEntry.t :=
  Some (logEntry.mk "info" message "" "" 0 0 0 false timestamp
          0%float 0%float 0%float 0 rate).

Definition sample (message timestamp : string) (mean min max : float64)
  : option logEntry.t :=
  Some (logEntry.mk "info" message "" "" 0 0 0 false timestamp
          max mean min 0 0%float).

(** Three samples of one counter, one second apart. *)
Definition aLog : list (option logEntry.t) :=
  [ running "X" 2 4 1024 false;
    counter "counter get" at0 100%float;
    counter "counter get" at1 150%float;
    counter "counter get" at2 130%float ].

Definition bLog : list (option logEntry.t) :=
  [ running "Y" 2 4 1024 false;
    counter "counter get" at0 90%float;
    counter "counter get" at1 95%float;
    counter "counter get" at2 100%float ].

(** Another configuration, with a latency metric. *)
Definition cLog : list (option logEntry.t) :=
  [ running "Z" 1 1 64 true;
    sample "sample set" at0 3%float 1%float 7%float;
    sample "sample set" at1 4%float 2%float 9%float ].

(** Five offsets, three samples of one counter and two of the other. *)
Definition shortLog : list (option logEntry.t) :=
  [ running "X" 2 4 1024 false;
    counter "counter get" at0 100%float;
    counter "counter set" at0 10%float;
    counter "counter get" at1 150%float;
    counter "counter set" at1 20%float;
    counter "counter get" at2 130%float;
    counter "" at3 0%float;
    counter "" at4 0%float ].

(** Two records of one report: the same timestamp. *)
Definition sharedLog : list (option logEntry.t) :=
  [ running "X" 2 4 1024 false;
    counter "counter get" at1 100%float;
    counter "counter set" at1 10%float ].

(** The third timestamp is earlier than the second. *)
Definition backwardsLog : list (option logEntry.t) :=
  [ running "X" 2 4 1024 false;
    counter "counter get" at0 100%float;
    counter "counter get" at2 150%float;
    counter "counter get" at1 130%float ].

Definition markerOnlyLog : list (option logEntry.t) :=
  [ running "X" 2 4 1024 false ].

Definition noMarkerLog : list (option logEntry.t) :=
  [ counter "counter get" at0 100%float ].

Definition twoMarkersLog : list (option logEntry.t) :=
  [ running "X" 2 4 1024 false; running "X" 2 4 1024 false ].

(** A first record that does not decode. *)
Definition malformedLog : list (option logEntry.t) := [ None ].

(** A marker record without engine name. *)
Definition noEngineLog : list (option logEntry.t) :=
  [ running "" 2 4 1024 false ].

(** A marker record without engine name, then one with a name. *)
Definition unnamedFirstLog : list (option logEntry.t) :=
  [ running "" 2 4 1024 false;
    running "X" 1 1 64 true;
    counter "counter get" at0 100%float ].

(** Two records timestamped with the first instant of year 1. *)
Definition yearOneLog : list (option logEntry.t) :=
  [ running "X" 2 4 1024 false;
    counter "counter get" atZero 100%float;
    counter "counter get" atZero 150%float ].

(** The loop's variables after the first two records of [sharedLog], and the
    third record. *)
Definition sharedState : loopState :=
  mkLoop
    (plotMeasurements.mk "X" (plotConfig.mk 2 4 1024 false) [0%Z]
       {[ "get rate" := [[100%float]] ]})
    (t0 + 1000000000)%Z.

Definition sharedEntry : logEntry.t :=
  logEntry.mk "info" "counter set" "" "" 0 0 0 false at1
    0%float 0%float 0%float 0 10%float.

Definition files : gmap string (list (option logEntry.t)) :=
  list_to_map
    [ ("a.log", aLog); ("b.log", bLog); ("c.log", cLog);
      ("short.log", shortLog); ("shared.log", sharedLog);
      ("backwards.log", backwardsLog); ("marker-only.log", markerOnlyLog);
      ("no-marker.log", noMarkerLog); ("two-markers.log", twoMarkersLog);
      ("malformed.log", malformedLog); ("no-engine.log", noEngineLog);
      ("unnamed-first.log", unnamedFirstLog); ("year-one.log", yearOneLog) ].

Definition world : World.t := World.mk files (λ _, true) true.

Definition plot (paths : list string) : Plot.t :=
  Plot.mk paths "results.html"
    "https://go-echarts.github.io/go-echarts-assets/assets/".

Definition second : time.Duration := 1000000000%Z.

(** Measurements as [processFile] leaves them for a.log. *)
Definition aligned : plotMeasurements.t :=
  plotMeasurements.mk "X" (plotConfig.mk 2 4 1024 false)
    [0%Z; 1000000000%Z; 2000000000%Z]
    {[ "get rate" := [[100%float]; [150%float]; [130%float]] ]}.

End Samples.

(** ** Vocabulary of the properties *)

(** The common length in the words of the specification: the minimum of the
    number of offsets and of the length of every recorded series. *)
Definition minLength (m : plotMeasurements.t) : nat :=
  foldr Nat.min (length (plotMeasurements.Timestamps m))
    (length <$> (map_to_list (plotMeasurements.Data m)).*2).

(** Every recorded series is as long as the offset sequence. *)
Definition reconciled (m : plotMeasurements.t) : Prop :=
  ∀ name series,
    plotMeasurements.Data m !! name = Some series →
    length series = length (plotMeasurements.Timestamps m).

(** Every element is below (not above) every later one. *)
Definition strictlyIncreasing (l : list Z) : Prop := StronglySorted Z.lt l.

Definition nonDecreasing (l : list Z) : Prop := StronglySorted Z.le l.

#[global] Instance strictlyIncreasing_dec l : Decision (strictlyIncreasing l).
Proof. unfold strictlyIncreasing. apply _. Defined.

#[global] Instance nonDecreasing_dec l : Decision (nonDecreasing l).
Proof. unfold nonDecreasing. apply _. Defined.

#[global] Instance reconciled_dec m : Decision (reconciled m).
Proof.
  refine (cast_if
            (decide (Forall (λ kv : string * list (list float64),
                               length kv.2 =
                                 length (plotMeasurements.Timestamps m))
                       (map_to_list (plotMeasurements.Data m)))));
    unfold reconciled.
  - intros name series Hin%elem_of_map_to_list.
    match goal with
    | Hall : Forall _ _ |- _ => exact (proj1 (Forall_forall _ _) Hall _ Hin)
    end.
  - intros Hall.
    match goal with Hnot : ¬ Forall _ _ |- _ => apply Hnot end.
    apply Forall_forall.
    intros [name series] Hin%elem_of_map_to_list. exact (Hall _ _ Hin).
Defined.

(** The instant a record carries, if it is timestamped and its timestamp
    parses. *)
Definition entryTime (time_Parse : string → string → option time.Time)
    (entry : logEntry.t) : option time.Time :=
  if bool_decide (logEntry.Timestamp entry ≠ "") then
    time_Parse timestampLayout (logEntry.Timestamp entry)
  else None.

(** The instants of the timestamped records of a stream, in order. *)
Definition streamTimes (time_Parse : string → string → option time.Time)
    (stream : list (option logEntry.t)) : list time.Time :=
  omap (λ r, r ≫= entryTime time_Parse) stream.

(** A record that decodes and whose timestamp, if any, parses. *)
Definition wellFormed (time_Parse : string → string → option time.Time)
    (r : option logEntry.t) : bool :=
  match r with
  | None => false
  | Some entry =>
      bool_decide (logEntry.Timestamp entry = "") ||
      bool_decide (is_Some (time_Parse timestampLayout (logEntry.Timestamp entry)))
  end.

(** The marker records of a stream. *)
Definition isMarker (entry : logEntry.t) : bool :=
  bool_decide (logEntry.Message entry = "running").

Definition markers (stream : list (option logEntry.t)) : list logEntry.t :=
  List.filter isMarker (omap id stream).

Definition markerConfig (entry : logEntry.t) : plotConfig.t :=
  plotConfig.mk (logEntry.Writers entry) (logEntry.Readers entry)
    (logEntry.Size entry) (logEntry.Vary entry).

(** The series a record's message names and the tuple it adds to it: the
    rate for a counter, mean, minimum and maximum for a sample, nothing for
    any other message. *)
Definition metricRow (entry : logEntry.t) : option (string * list float64) :=
  let msg := logEntry.Message entry in
  let triple := [logEntry.Mean entry; logEntry.Min entry; logEntry.Max entry] in
  if bool_decide (msg = "counter get") then Some ("get rate", [logEntry.Rate entry])
  else if bool_decide (msg = "counter set") then Some ("set rate", [logEntry.Rate entry])
  else if bool_decide (msg = "sample get.ready") then Some ("get ready", triple)
  else if bool_decide (msg = "sample get.first") then Some ("get first", triple)
  else if bool_decide (msg = "sample get.total") then Some ("get total", triple)
  else if bool_decide (msg = "sample set") then Some ("set", triple)
  else None.

(** The loop never reads [Timestamps[len-1]] of an empty sequence: once a
    baseline is set there is an offset. *)
Definition hasOffset (st : loopState) : Prop :=
  time.IsZero (start st) = false →
  plotMeasurements.Timestamps (measurements st) ≠ [].

(** The runs of the files that [processFile] accepts, in the order of the
    files. *)
Definition fileRuns (time_Parse : string → string → option time.Time)
    (w : World.t) (paths : list string) : list plotMeasurements.t :=
  omap (λ path,
          match processFile time_Parse w path with
          | inr m => Some m
          | inl _ => None
          end) paths.

(** The runs of a configuration among [runs], in order. *)
Definition runsOf (c : plotConfig.t) (runs : list plotMeasurements.t)
  : list plotMeasurements.t :=
  filter (λ m, plotMeasurements.Config m = c) runs.

(** The metrics that record a duration as mean, minimum and maximum. *)
Definition latencyNames : list string :=
  ["get ready"; "get first"; "get total"; "set"].

(** Every row of every series is the tuple of a record tagged for that
    series. *)
Definition rowsFromRecords (m : plotMeasurements.t) : Prop :=
  ∀ name row,
    row ∈ plotMeasurements.Data m !!! name →
    ∃ entry, metricRow entry = Some (name, row).

(** The records of a stream whose message is tagged for the series [name],
    in the order of the stream. *)
Definition recordsFor (name : string) (stream : list (option logEntry.t))
  : list logEntry.t :=
  filter (λ entry, fst <$> metricRow entry = Some name) (omap id stream).

(** The point of a latency record at an offset: the offset in display
    units, then the mean, the minimum and the maximum of the record, in this
    order. *)
Definition whiskerPoint (unit offset : time.Duration) (entry : logEntry.t)
  : LineData.t :=
  LineData.mk
    [VDuration (time.Div offset unit); VFloat (logEntry.Mean entry);
     VFloat (logEntry.Min entry); VFloat (logEntry.Max entry)].

(** The chart point of one row: the row's offset in display units, then the
    row's values in order. *)
Definition linePoint (unit offset : time.Duration) (values : list float64)
  : LineData.t :=
  LineData.mk (VDuration (time.Div offset unit) :: (VFloat <$> values)).

(** The points of a run for a metric, and the series [renderPlot] adds for
    the run: the line and, unless the metric is a rate, the error bars. *)
Definition runPoints (unit : time.Duration) (name : string)
    (m : plotMeasurements.t) : list LineData.t :=
  zip_with (linePoint unit) (plotMeasurements.Timestamps m)
    (plotMeasurements.Data m !!! name).

Definition runSeries (unit : time.Duration) (name : string)
    (m : plotMeasurements.t) : list SingleSeries.t :=
  let data := runPoints unit name m in
  if negb (strings_Contains name "rate") then
    [SingleSeries.line (plotMeasurements.Engine m) data;
     errorBarSeries (plotMeasurements.Engine m) data]
  else [SingleSeries.line (plotMeasurements.Engine m) data].

(** ** The Immudb engine

    The adapter of immudb.go over the calls it makes on the embedded store,
    which is not part of the repository: [answer history call] is the error
    the store returns to [call] when the calls of [history] came before it
    ([None] for nil), and [resolved history] the value [ref.Resolve] gives.
    A function of the adapter takes the calls made so far and returns its
    result with the calls made by then. An [errors.E] is the list of the
    store's errors it was made from, in the order of [errors.Join]; nil is
    the empty list. [Init] is left out: it rests on helpers of the package
    (isEmpty, the logger wrapper, the application record) that are declared
    outside the files at hand. *)
Module immudb.

Inductive storeError : Type :=
  | ErrAlreadyClosed
  | ErrStore (text : string)
  | ErrWrapped (text : string) (cause : storeError).

(** [errors.Is err store.ErrAlreadyClosed] *)
Fixpoint isAlreadyClosed (err : storeError) : bool :=
  match err with
  | ErrAlreadyClosed => true
  | ErrStore _ => false
  | ErrWrapped _ cause => isAlreadyClosed cause
  end.

Inductive txMode : Type := ReadOnlyTx | ReadWriteTx.

Inductive storeCall : Type :=
  | DbClose
  | DbSync
  | DbNewTx (mode : txMode)
  | TxGet (key : list Byte.byte)
  | RefResolve
  | TxSet (key value : list Byte.byte)
  | TxCommit
  | TxCancel.

Definition E : Type := list storeError.

(** [errors.WithStack err], nil for nil. *)
Definition WithStack (err : option storeError) : E := option_list err.

(** [errors.Join a b]: nil values are discarded. *)
Definition Join (a b : E) : E := a ++ b.

(** A computation on the store: from the calls made so far to a result and
    the calls made by then. *)
Definition onStore (A : Type) : Type := list storeCall → A * list storeCall.

#[global] Instance onStore_ret : MRet onStore := λ A x history, (x, history).
#[global] Instance onStore_bind : MBind onStore := λ A B f c history,
  let '(x, history') := c history in f x history'.

(** What [newReadSeekCloser value close] is given: the value and the
    function to call when the reader is closed. *)
Inductive reader : Type :=
  newReadSeekCloser (value : list Byte.byte) (close : onStore E).

Section Adapter.

Variable answer : list storeCall → storeCall → option storeError.
Variable resolved : list storeCall → list Byte.byte.

Definition call (c : storeCall) : onStore (option storeError) :=
  λ history, (answer history c, history ++ [c]).

(** [ref.Resolve()]: the value and the error. *)
Definition resolve : onStore (option storeError * list Byte.byte) :=
  λ history,
    ((answer history RefResolve, resolved history), history ++ [RefResolve]).

(** Lines 18-20. *)
Definition Close : onStore E := err ← call DbClose; mret (WithStack err).

(** Lines 22-24. *)
Definition Sync : onStore E := err ← call DbSync; mret (WithStack err).

(** Lines 40-42: the function handed to the reader. *)
Definition cancelOnClose : onStore E :=
  err ← call TxCancel; mret (WithStack err).

(** Lines 26-43. *)
Definition Get (key : list Byte.byte) : onStore (E + reader) :=
  err ← call (DbNewTx ReadOnlyTx);
  match err with
  | Some e => mret (inl (WithStack (Some e)))
  | None =>
      err ← call (TxGet key);
      match err with
      | Some e =>
          cancelled ← call TxCancel;
          mret (inl (Join (WithStack (Some e)) (WithStack cancelled)))
      | None =>
          '(err, value) ← resolve;
          match err with
          | Some e =>
              cancelled ← call TxCancel;
              mret (inl (Join (WithStack (Some e)) (WithStack cancelled)))
          | None => mret (inr (newReadSeekCloser value cancelOnClose))
          end
      end
  end.

(** Line 66. *)
Definition Name : string := "Immudb".

(** Lines 76-82: the deferred function, on the error [errE] about to be
    returned. *)
Definition cancelDeferred (errE : E) : onStore E :=
  err ← call TxCancel;
  let err :=
    match err with
    | Some e => if isAlreadyClosed e then None else Some e
    | None => None
    end in
  mret (Join errE (WithStack err)).

(** Lines 70-91. *)
Definition Put (key value : list Byte.byte) : onStore E :=
  err ← call (DbNewTx ReadWriteTx);
  match err with
  | Some e => mret (WithStack (Some e))
  | None =>
      errE ← (err ← call (TxSet key value);
              match err with
              | Some e => mret (WithStack (Some e))
              | None => err ← call TxCommit; mret (WithStack err)
              end);
      cancelDeferred errE
  end.

End Adapter.

(** A store that answers as immudb does to what the adapter does in one
    transaction: cancelling after a commit is refused as already closed,
    everything else succeeds, but setting the empty key. *)
Definition sampleAnswer (history : list storeCall) (c : storeCall)
  : option storeError :=
  match c with
  | TxCancel =>
      match last history with
      | Some TxCommit => Some ErrAlreadyClosed
      | _ => None
      end
  | TxSet [] _ => Some (ErrStore "illegal arguments")
  | _ => None
  end.

Definition sampleResolved (history : list storeCall) : list Byte.byte :=
  [Byte.x76; Byte.x61; Byte.x6c].

End immudb.

(** A log whose records carry no timestamp. *)
Module Untimed.

Definition log : list (option logEntry.t) :=
  [ Samples.running "X" 2 4 1024 false;
    Samples.counter "counter get" "" 100%float;
    Samples.counter "counter get" "" 150%float ].

Definition world : World.t :=
  World.mk {[ "untimed.log" := log ]} (λ _, true) true.

End Untimed.

(** ** Vocabulary of the further properties *)

(** The tuple a record adds to the series [name], if its message is tagged
    for that series. *)
Definition rowFor (name : string) (entry : logEntry.t) : option (list float64) :=
  match metricRow entry with
  | Some (name', row) => if decide (name' = name) then Some row else None
  | None => None
  end.

(** The tuples the records of a stream add to the series [name], in the
    order of the records. *)
Definition seriesOf (name : string) (stream : list (option logEntry.t))
  : list (list float64) :=
  omap (λ r, r ≫= rowFor name) stream.

(** The offsets that follow the offset [latest]: each one that differs from
    the offset before it. *)
Fixpoint coalesceFrom (latest : time.Duration) (offsets : list time.Duration)
  : list time.Duration :=
  match offsets with
  | [] => []
  | offset :: rest =>
      if bool_decide (latest ≠ offset) then offset :: coalesceFrom offset rest
      else coalesceFrom latest rest
  end.

(** The offsets of the instants of a stream: zero for the first instant,
    then the time since the first instant, coalesced. A first instant that
    is the zero time leaves the loop without baseline, so that the next
    instant is a first instant again. *)
Fixpoint elapsedOffsets (times : list time.Time) : list time.Duration :=
  match times with
  | [] => []
  | first :: rest =>
      0%Z :: (if time.IsZero first then elapsedOffsets rest
              else coalesceFrom 0%Z ((λ t, time.Sub t first) <$> rest))
  end.

(** All the runs of all the groups. *)
Definition groupedRuns (data : gmap plotConfig.t (list plotMeasurements.t))
  : list plotMeasurements.t :=
  map_to_list data ≫= snd.

(** The charts of one group of runs: for each metric, in the fixed order of
    the metrics, the chart [renderPlot] gives for the group's configuration,
    the metric and the group's runs, titled with the metric. *)
Definition groupCharts (unit : time.Duration)
    (group : plotConfig.t * list plotMeasurements.t) (charts : list Line.t)
  : Prop :=
  Forall2 (λ name plot,
             renderPlot unit group.1 name group.2 = inr plot ∧
             Title.Title (Line.Title plot) = name)
    metricNames charts.

(** The toggle script on a chart: on every series of the chart. *)
Definition toggleChart (line : Line.t) : Line.t :=
  Line.mk (Line.YAxis line) (Line.Toolbox line) (Line.Title line)
    (Line.Grid line) (Line.XAxis line) (Line.Legend line)
    (toggleSeries <$> Line.MultiSeries line).

(** * Properties *)

(** ** The small error monad *)

Lemma bind_inr {A B} (f : A → result B) (r : result A) (y : B) :
  r ≫= f = inr y ↔ ∃ x, r = inr x ∧ f x = inr y.
Proof.
  destruct r as [e|x]; simpl; split.
  - intros [=].
  - intros (x & [=] & _).
  - eauto.
  - by intros (? & [= <-] & ?).
Qed.

Lemma bind_inl {A B} (f : A → result B) (r : result A) (e : error) :
  r ≫= f = inl e ↔ r = inl e ∨ ∃ x, r = inr x ∧ f x = inl e.
Proof.
  destruct r as [e'|x]; simpl; split.
  - intros [= ->]. by left.
  - intros [[= ->]|(x & [=] & _)]. done.
  - eauto.
  - intros [[=]|(? & [= <-] & ?)]. done.
Qed.

(** ** Reconciliation *)

Section Reconcile.

Implicit Types m : plotMeasurements.t.

Lemma reconcileLength_minLength m : reconcileLength m = minLength m.
Proof.
  unfold reconcileLength, minLength. rewrite map_fold_foldr.
  induction (map_to_list (plotMeasurements.Data m)) as [|[k v] l IH]; csimpl.
  - done.
  - rewrite IH. case_bool_decide; lia.
Qed.

Lemma minLength_le_offsets m :
  minLength m ≤ length (plotMeasurements.Timestamps m).
Proof.
  unfold minLength.
  induction (map_to_list (plotMeasurements.Data m)) as [|[k v] l IH]; csimpl; lia.
Qed.

Lemma minLength_le_series m name series :
  plotMeasurements.Data m !! name = Some series →
  minLength m ≤ length series.
Proof.
  intros Hin%elem_of_map_to_list. unfold minLength.
  induction (map_to_list (plotMeasurements.Data m)) as [|[k v] l IH]; csimpl.
  - by apply elem_of_nil in Hin.
  - apply elem_of_cons in Hin as [[= <- <-]|Hin]; [lia|].
    specialize (IH Hin). lia.
Qed.

(** The minimum is the length of one of the sequences. *)
Lemma minLength_attained m :
  minLength m = length (plotMeasurements.Timestamps m) ∨
  ∃ name series,
    plotMeasurements.Data m !! name = Some series ∧ minLength m = length series.
Proof.
  unfold minLength.
  assert (∀ k v, (k, v) ∈ map_to_list (plotMeasurements.Data m) →
                 plotMeasurements.Data m !! k = Some v) as Hin
    by (intros; by apply elem_of_map_to_list).
  induction (map_to_list (plotMeasurements.Data m)) as [|[k v] l IH]; csimpl.
  - by left.
  - destruct IH as [IH|(name & series & ? & IH)].
    { intros. apply Hin. by right. }
    + destruct (Nat.min_spec (length v)
                  (foldr Nat.min (length (plotMeasurements.Timestamps m))
                     (length <$> l.*2))) as [[_ ->]|[_ ->]].
      * right. exists k, v. split; [apply Hin; by left|done].
      * by left.
    + right.
      destruct (Nat.min_spec (length v)
                  (foldr Nat.min (length (plotMeasurements.Timestamps m))
                     (length <$> l.*2))) as [[_ ->]|[_ ->]].
      * exists k, v. split; [apply Hin; by left|done].
      * by exists name, series.
Qed.

Lemma reconcile_reconciled m : reconciled (reconcile m).
Proof.
  intros name series. unfold reconcile; simpl.
  rewrite lookup_fmap. destruct (plotMeasurements.Data m !! name) as [s|] eqn:Hs;
    simpl; [|done].
  intros [= <-]. rewrite !length_take, reconcileLength_minLength.
  pose proof (minLength_le_offsets m). pose proof (minLength_le_series _ _ _ Hs).
  lia.
Qed.

End Reconcile.

(** What [processFile] returns is reconciled. *)
Lemma processFile_reconciled
    (time_Parse : string → string → option time.Time)
    (w : World.t) (path : string) (m : plotMeasurements.t) :
  processFile time_Parse w path = inr m → reconciled m.
Proof.
  unfold processFile. destruct (World.files w !! path) as [stream|]; [|done].
  intros (st & _ & H)%bind_inr. case_bool_decide; [done|].
  injection H as <-. apply reconcile_reconciled.
Qed.

(** C1. For every file [processFile] accepts, the common length is the
    minimum of the number of offsets and of the length of every recorded
    series; the offsets and every series are cut to their first entries of
    that number, so that afterwards every series is as long as the offset
    sequence; the common length exceeds no length before the cut, and the cut
    only drops entries: every resulting series is a prefix of the recorded
    one. *)
Theorem processFile_reconciles
    (time_Parse : string → string → option time.Time)
    (w : World.t) (path : string) (m : plotMeasurements.t) :
  processFile time_Parse w path = inr m →
  ∃ stream st,
    World.files w !! path = Some stream ∧
    decodeLoop time_Parse stream initialState = inr st ∧
    let before := measurements st in
    let L := minLength before in
    reconcileLength before = L ∧
    plotMeasurements.Timestamps m = take L (plotMeasurements.Timestamps before) ∧
    plotMeasurements.Data m = take L <$> plotMeasurements.Data before ∧
    length (plotMeasurements.Timestamps m) = L ∧
    (∀ name series,
       plotMeasurements.Data m !! name = Some series →
       length series = length (plotMeasurements.Timestamps m)) ∧
    L ≤ length (plotMeasurements.Timestamps before) ∧
    (∀ name series,
       plotMeasurements.Data before !! name = Some series →
       L ≤ length series ∧
       plotMeasurements.Data m !! name = Some (take L series)).
Proof.
  unfold processFile. intros H.
  destruct (World.files w !! path) as [stream|] eqn:Hfile; [|done].
  apply bind_inr in H as (st & Hloop & H).
  case_bool_decide; [done|]. injection H as <-.
  exists stream, st. split; [done|]. split; [done|]. cbv zeta.
  pose proof (reconcileLength_minLength (measurements st)) as HL.
  pose proof (minLength_le_offsets (measurements st)) as Hle.
  split_and!.
  - done.
  - simpl. by rewrite HL.
  - simpl. by rewrite HL.
  - simpl. rewrite length_take, HL. lia.
  - apply reconcile_reconciled.
  - done.
  - intros name series Hs. split; [by eapply minLength_le_series|].
    simpl. by rewrite lookup_fmap, Hs, HL.
Qed.

Lemma processFile_reconciles_witness :
  ∃ m, processFile Samples.parse Samples.world "short.log" = inr m ∧
       reconciled m.
Proof.
  destruct (processFile Samples.parse Samples.world "short.log")
    as [e|m] eqn:Hfile.
  { vm_compute in Hfile. discriminate Hfile. }
  exists m. split; [reflexivity|].
  destruct (processFile_reconciles Samples.parse Samples.world "short.log" m
              Hfile)
    as (stream & st & _ & _ & _ & _ & _ & _ & Hrec & _).
  exact Hrec.
Defined.

(** ** Chart points *)

Section LineData.

Variable unit : time.Duration.

Lemma makeLineDataFrom_zip (data : list (list float64)) :
  ∀ (from : nat) (timestamps : list time.Duration),
    from + length data ≤ length timestamps →
    makeLineDataFrom unit from timestamps data =
      inr (zip_with (linePoint unit) (drop from timestamps) data).
Proof.
  induction data as [|values rest IH]; intros from timestamps Hlen; simpl.
  - by rewrite zip_with_nil_r.
  - simpl in Hlen.
    destruct (timestamps !! from) as [t|] eqn:Ht.
    2:{ apply lookup_ge_None in Ht. lia. }
    rewrite IH by lia. simpl.
    rewrite (drop_S _ _ _ Ht). done.
Qed.

Lemma makeLineData_zip (timestamps : list time.Duration)
    (data : list (list float64)) :
  length data ≤ length timestamps →
  makeLineData unit timestamps data =
    inr (zip_with (linePoint unit) timestamps data).
Proof. intros. unfold makeLineData. by rewrite makeLineDataFrom_zip. Qed.

(** A series longer than the offsets makes [timestamps[i]] panic. *)
Lemma makeLineDataFrom_short (data : list (list float64)) :
  ∀ (from : nat) (timestamps : list time.Duration),
    from ≤ length timestamps →
    length timestamps < from + length data →
    makeLineDataFrom unit from timestamps data = inl IndexOutOfRange.
Proof.
  induction data as [|values rest IH]; intros from timestamps Hfrom Hlen;
    simpl in *.
  - lia.
  - destruct (timestamps !! from) as [t|] eqn:Ht; [|done].
    apply lookup_lt_Some in Ht. rewrite IH by lia. done.
Qed.

Lemma reconciled_series_length (m : plotMeasurements.t) (name : string) :
  reconciled m →
  length (plotMeasurements.Data m !!! name) ≤
    length (plotMeasurements.Timestamps m).
Proof.
  intros Hrec. rewrite lookup_total_alt.
  destruct (plotMeasurements.Data m !! name) as [series|] eqn:Hs; simpl.
  - by rewrite (Hrec _ _ Hs).
  - lia.
Qed.

End LineData.

(** C10. On reconciled measurements and for every metric name,
    [makeLineData] returns: it never reads an offset out of range, and it
    gives one point per row of the series, made of the row's offset divided
    by the display unit followed by the row's values in order. *)
Theorem makeLineData_total (dataIntervalUnit : time.Duration)
    (m : plotMeasurements.t) (name : string) :
  reconciled m →
  ∃ points,
    makeLineData dataIntervalUnit (plotMeasurements.Timestamps m)
      (plotMeasurements.Data m !!! name) = inr points ∧
    length points = length (plotMeasurements.Data m !!! name) ∧
    ∀ i values,
      (plotMeasurements.Data m !!! name) !! i = Some values →
      ∃ offset,
        plotMeasurements.Timestamps m !! i = Some offset ∧
        points !! i =
          Some (LineData.mk
                  (VDuration (time.Div offset dataIntervalUnit)
                   :: (VFloat <$> values))).
Proof.
  intros Hrec.
  pose proof (reconciled_series_length m name Hrec) as Hlen.
  eexists. split; [by apply makeLineData_zip|].
  split.
  - rewrite length_zip_with. lia.
  - intros i values Hi.
    destruct (plotMeasurements.Timestamps m !! i) as [offset|] eqn:Ho.
    + exists offset. split; [done|].
      rewrite lookup_zip_with, Ho. simpl. by rewrite Hi.
    + apply lookup_ge_None in Ho. apply lookup_lt_Some in Hi. lia.
Qed.

Lemma makeLineData_total_witness :
  ∃ points,
    makeLineData Samples.second
      (plotMeasurements.Timestamps Samples.aligned)
      (plotMeasurements.Data Samples.aligned !!! "get rate") = inr points ∧
    length points = 3.
Proof.
  destruct (makeLineData_total Samples.second Samples.aligned "get rate")
    as (points & Hpoints & Hlen & _).
  { apply (bool_decide_unpack (reconciled Samples.aligned)). vm_compute. exact I. }
  exists points. split; [exact Hpoints|]. rewrite Hlen. reflexivity.
Defined.

(** ** The decode loop *)

Section Loop.

Variable time_Parse : string → string → option time.Time.

Implicit Types (st : loopState) (entry : logEntry.t) (m : plotMeasurements.t).

Lemma recordMessage_marker m entry :
  isMarker entry = true →
  recordMessage m entry =
    if bool_decide (plotMeasurements.Engine m ≠ "") then inl DuplicateMarker
    else inr (plotMeasurements.setMarker (logEntry.Engine entry)
                (markerConfig entry) m).
Proof.
  unfold isMarker, recordMessage. intros ?%bool_decide_eq_true.
  by rewrite bool_decide_eq_true_2.
Qed.

(** The switch does what the record's tag says. *)
Lemma recordMessage_metric m entry :
  isMarker entry = false →
  recordMessage m entry =
    inr (match metricRow entry with
         | Some (name, row) => plotMeasurements.appendData name row m
         | None => m
         end).
Proof.
  unfold isMarker, recordMessage, metricRow. intros ?%bool_decide_eq_false.
  rewrite bool_decide_eq_false_2 by done.
  by repeat case_bool_decide.
Qed.

Lemma metricRow_marker entry : isMarker entry = true → metricRow entry = None.
Proof.
  unfold isMarker, metricRow. intros ->%bool_decide_eq_true.
  by repeat case_bool_decide.
Qed.

Lemma recordMessage_frame m entry m' :
  recordMessage m entry = inr m' →
  plotMeasurements.Timestamps m' = plotMeasurements.Timestamps m ∧
  plotMeasurements.Data m' =
    match metricRow entry with
    | Some (name, row) =>
        <[name := (plotMeasurements.Data m !!! name) ++ [row]]>
          (plotMeasurements.Data m)
    | None => plotMeasurements.Data m
    end.
Proof.
  destruct (isMarker entry) eqn:Hmk.
  - rewrite recordMessage_marker, metricRow_marker by done.
    case_bool_decide; [done|]. by intros [= <-].
  - rewrite recordMessage_metric by done. intros [= <-].
    by destruct (metricRow entry) as [[name row]|].
Qed.

Lemma recordMessage_keeps_marker m entry m' :
  isMarker entry = false →
  recordMessage m entry = inr m' →
  plotMeasurements.Engine m' = plotMeasurements.Engine m ∧
  plotMeasurements.Config m' = plotMeasurements.Config m.
Proof.
  intros Hmk. rewrite recordMessage_metric by done. intros [= <-].
  by destruct (metricRow entry) as [[name row]|].
Qed.

(** What a successful [recordTimestamp] did, by the instant of the record. *)
Lemma recordTimestamp_cases st entry st1 :
  recordTimestamp time_Parse st entry = inr st1 →
  plotMeasurements.Engine (measurements st1) =
    plotMeasurements.Engine (measurements st) ∧
  plotMeasurements.Config (measurements st1) =
    plotMeasurements.Config (measurements st) ∧
  plotMeasurements.Data (measurements st1) =
    plotMeasurements.Data (measurements st) ∧
  match entryTime time_Parse entry with
  | None => st1 = st
  | Some t =>
      if time.IsZero (start st) then
        start st1 = t ∧
        plotMeasurements.Timestamps (measurements st1) =
          plotMeasurements.Timestamps (measurements st) ++ [0%Z]
      else
        start st1 = start st ∧
        ∃ latest,
          last (plotMeasurements.Timestamps (measurements st)) = Some latest ∧
          plotMeasurements.Timestamps (measurements st1) =
            if bool_decide (latest ≠ time.Sub t (start st)) then
              plotMeasurements.Timestamps (measurements st)
                ++ [time.Sub t (start st)]
            else plotMeasurements.Timestamps (measurements st)
  end.
Proof.
  unfold recordTimestamp, entryTime.
  case_bool_decide as Hts; [|by intros [= <-]].
  destruct (time_Parse _ _) as [t|]; [|done].
  destruct (time.IsZero (start st)) eqn:Hzero.
  - by intros [= <-].
  - destruct (last _) as [latest|] eqn:Hlast; [|done].
    case_bool_decide; intros [= <-]; simpl; split_and!; try done.
    + exists latest. by rewrite bool_decide_eq_true_2.
    + exists latest. rewrite bool_decide_eq_false_2; [done|]. by intros [].
Qed.

Lemma recordTimestamp_hasOffset st entry st1 :
  recordTimestamp time_Parse st entry = inr st1 →
  hasOffset st → hasOffset st1.
Proof.
  intros (_ & _ & _ & H)%recordTimestamp_cases Hst.
  destruct (entryTime time_Parse entry) as [t|]; [|by subst].
  intros _. destruct (time.IsZero (start st)) eqn:Hzero.
  - destruct H as [_ ->]. by intros []%app_eq_nil.
  - destruct H as (_ & latest & _ & ->).
    case_bool_decide; [by intros []%app_eq_nil|by apply Hst].
Qed.

(** A record that decodes and parses gets past [recordTimestamp]. *)
Lemma recordTimestamp_total st entry :
  wellFormed time_Parse (Some entry) = true →
  hasOffset st →
  ∃ st1, recordTimestamp time_Parse st entry = inr st1.
Proof.
  unfold wellFormed, recordTimestamp. intros Hwf Hst.
  destruct (decide (logEntry.Timestamp entry = "")) as [Hts|Hts].
  { rewrite bool_decide_eq_false_2 by (by intros []). eauto. }
  rewrite bool_decide_eq_true_2 by done.
  rewrite bool_decide_eq_false_2 in Hwf by done. simpl in Hwf.
  apply bool_decide_eq_true in Hwf as [t ->].
  destruct (time.IsZero (start st)) eqn:Hzero; [by eauto|].
  destruct (last _) as [latest|] eqn:Hlast.
  - case_bool_decide; eauto.
  - apply last_None in Hlast. by destruct (Hst Hzero).
Qed.

Lemma recordTimestamp_no_panic st entry :
  hasOffset st → recordTimestamp time_Parse st entry ≠ inl IndexOutOfRange.
Proof.
  unfold recordTimestamp. intros Hst.
  case_bool_decide; [|done].
  destruct (time_Parse _ _); [|done].
  destruct (time.IsZero (start st)) eqn:Hzero; [done|].
  destruct (last _) as [latest|] eqn:Hlast.
  - by case_bool_decide.
  - apply last_None in Hlast. by destruct (Hst Hzero).
Qed.

Lemma processEntry_inr st entry st' :
  processEntry time_Parse st entry = inr st' ↔
  ∃ st1 m,
    recordTimestamp time_Parse st entry = inr st1 ∧
    recordMessage (measurements st1) entry = inr m ∧
    st' = mkLoop m (start st1).
Proof.
  unfold processEntry. rewrite bind_inr. split.
  - intros (st1 & H1 & (m & H2 & [= <-])%bind_inr). eauto.
  - intros (st1 & m & H1 & H2 & ->). exists st1. split; [done|].
    apply bind_inr. eauto.
Qed.

Lemma processEntry_hasOffset st entry st' :
  processEntry time_Parse st entry = inr st' → hasOffset st → hasOffset st'.
Proof.
  intros (st1 & m & H1 & H2 & ->)%processEntry_inr Hst.
  pose proof (recordTimestamp_hasOffset _ _ _ H1 Hst) as Hst1.
  apply recordMessage_frame in H2 as [Hts _].
  unfold hasOffset in *; simpl. by rewrite Hts.
Qed.

Lemma processEntry_no_panic st entry :
  hasOffset st → processEntry time_Parse st entry ≠ inl IndexOutOfRange.
Proof.
  intros Hst [H|(st1 & H1 & H)]%bind_inl.
  - by eapply recordTimestamp_no_panic.
  - apply bind_inl in H as [H|(m & _ & [=])].
    unfold recordMessage in H. by repeat case_bool_decide.
Qed.

Lemma decodeLoop_hasOffset stream : ∀ st st',
  decodeLoop time_Parse stream st = inr st' → hasOffset st → hasOffset st'.
Proof.
  induction stream as [|[entry|] rest IH]; intros st st'; simpl.
  - by intros [= <-].
  - destruct (processEntry time_Parse st entry) as [e|st1] eqn:Hstep; [done|].
    intros Hloop Hst. eapply IH; [done|]. by eapply processEntry_hasOffset.
  - done.
Qed.

Lemma decodeLoop_no_panic stream : ∀ st,
  hasOffset st → decodeLoop time_Parse stream st ≠ inl IndexOutOfRange.
Proof.
  induction stream as [|[entry|] rest IH]; intros st Hst; simpl; [done| |done].
  destruct (processEntry time_Parse st entry) as [e|st1] eqn:Hstep.
  - intros [= ->]. by eapply processEntry_no_panic.
  - apply IH. by eapply processEntry_hasOffset.
Qed.

Lemma initialState_hasOffset : hasOffset initialState.
Proof. intros [=]. Qed.

(** Reading a file never panics. *)
Lemma processFile_no_panic (w : World.t) (path : string) :
  processFile time_Parse w path ≠ inl IndexOutOfRange.
Proof.
  unfold processFile. destruct (World.files w !! path) as [stream|]; [|done].
  intros [H|(st & _ & H)]%bind_inl.
  - by apply (decodeLoop_no_panic stream initialState initialState_hasOffset).
  - by case_bool_decide.
Qed.

End Loop.

(** ** The series of a stream *)

Section Series.

Variable time_Parse : string → string → option time.Time.

Implicit Types (st : loopState) (entry : logEntry.t)
  (stream : list (option logEntry.t)).

Lemma seriesOf_cons name entry stream :
  seriesOf name (Some entry :: stream) =
    match rowFor name entry with
    | Some row => row :: seriesOf name stream
    | None => seriesOf name stream
    end.
Proof. done. Qed.

(** One turn of the loop on the series [name]. *)
Lemma processEntry_series st entry st' name :
  processEntry time_Parse st entry = inr st' →
  plotMeasurements.Data (measurements st') !!! name =
    plotMeasurements.Data (measurements st) !!! name
      ++ from_option (λ row, [row]) [] (rowFor name entry).
Proof.
  intros (st1 & m & H1 & H2 & ->)%processEntry_inr. simpl.
  apply recordTimestamp_cases in H1 as (_ & _ & Hdata & _).
  apply recordMessage_frame in H2 as [_ ->]. rewrite Hdata. unfold rowFor.
  destruct (metricRow entry) as [[name' row]|]; simpl.
  - case_decide as Hname.
    + subst. by rewrite lookup_total_insert_eq.
    + rewrite lookup_total_insert_ne by done. by rewrite app_nil_r.
  - by rewrite app_nil_r.
Qed.

Lemma decodeLoop_series stream : ∀ st st' name,
  decodeLoop time_Parse stream st = inr st' →
  plotMeasurements.Data (measurements st') !!! name =
    plotMeasurements.Data (measurements st) !!! name ++ seriesOf name stream.
Proof.
  induction stream as [|[entry|] rest IH]; intros st st' name;
    cbn [decodeLoop]; [|..|done].
  - intros [= <-]. by rewrite app_nil_r.
  - destruct (processEntry time_Parse st entry) as [e|st1] eqn:Hstep; [done|].
    intros Hloop. rewrite (IH _ _ name Hloop).
    rewrite (processEntry_series _ _ _ name Hstep), seriesOf_cons.
    destruct (rowFor name entry); simpl; by rewrite <-?app_assoc, ?app_nil_r.
Qed.

(** One turn of the loop on the recorded names. *)
Lemma processEntry_recorded st entry st' name :
  processEntry time_Parse st entry = inr st' →
  is_Some (plotMeasurements.Data (measurements st') !! name) ↔
  is_Some (plotMeasurements.Data (measurements st) !! name) ∨
  is_Some (rowFor name entry).
Proof.
  intros (st1 & m & H1 & H2 & ->)%processEntry_inr. simpl.
  apply recordTimestamp_cases in H1 as (_ & _ & Hdata & _).
  apply recordMessage_frame in H2 as [_ ->]. rewrite Hdata. unfold rowFor.
  destruct (metricRow entry) as [[name' row]|]; simpl.
  - rewrite lookup_insert_is_Some. case_decide as Hname.
    + subst. split; [by right; eauto|by left].
    + split; [intros [?|[_ ?]]; [done|by left]|].
      intros [?|[? [=]]]. by right.
  - split; [by left|]. by intros [?|[? [=]]].
Qed.

Lemma decodeLoop_recorded stream : ∀ st st' name,
  decodeLoop time_Parse stream st = inr st' →
  is_Some (plotMeasurements.Data (measurements st') !! name) ↔
  is_Some (plotMeasurements.Data (measurements st) !! name) ∨
  seriesOf name stream ≠ [].
Proof.
  induction stream as [|[entry|] rest IH]; intros st st' name;
    cbn [decodeLoop]; [|..|done].
  - intros [= <-]. split; [by left|]. by intros [?|[]].
  - destruct (processEntry time_Parse st entry) as [e|st1] eqn:Hstep; [done|].
    intros Hloop. rewrite (IH _ _ name Hloop).
    rewrite (processEntry_recorded _ _ _ name Hstep), seriesOf_cons.
    destruct (rowFor name entry) as [row|].
    + split; [by right|]. intros _. left. right. eauto.
    + split; [intros [[?|[? [=]]]|?]; eauto|]. intros [?|?]; eauto.
Qed.

End Series.

(** ** Elapsed offsets *)

Lemma Sub_diag (t : time.Time) : time.Sub t t = 0%Z.
Proof.
  unfold time.Sub. rewrite Z.sub_diag.
  rewrite !bool_decide_eq_false_2; [done| |]; by vm_compute.
Qed.

Lemma Sub_mono (t1 t2 s : time.Time) :
  (t1 ≤ t2)%Z → (time.Sub t1 s ≤ time.Sub t2 s)%Z.
Proof.
  intros Hle. unfold time.Sub, time.minDuration, time.maxDuration.
  change (2 ^ 63)%Z with 9223372036854775808%Z.
  repeat case_bool_decide; lia.
Qed.

Lemma strictlyIncreasing_snoc (l : list Z) (x y : Z) :
  strictlyIncreasing l → last l = Some y → (y < x)%Z →
  strictlyIncreasing (l ++ [x]).
Proof.
  unfold strictlyIncreasing. intros Hl (l' & ->)%last_Some Hyx.
  apply StronglySorted_app. split_and!; [|done|repeat constructor].
  intros a b Ha ->%list_elem_of_singleton.
  apply elem_of_app in Ha as [Ha| ->%list_elem_of_singleton]; [|done].
  pose proof (StronglySorted_app_1_elem_of _ _ _ a y Hl Ha) as Hay.
  etrans; [apply Hay; by apply list_elem_of_singleton|done].
Qed.

Lemma strictlyIncreasing_take (n : nat) (l : list Z) :
  strictlyIncreasing l → strictlyIncreasing (take n l).
Proof.
  unfold strictlyIncreasing. rewrite <-(take_drop n l) at 1.
  apply StronglySorted_app_1_l.
Qed.

Lemma head_take_nonempty {A} (n : nat) (l : list A) :
  take n l ≠ [] → head (take n l) = head l.
Proof. by destruct n, l. Qed.

Lemma head_snoc_nonempty {A} (l : list A) (x : A) :
  l ≠ [] → head (l ++ [x]) = head l.
Proof. by destruct l. Qed.

Section Offsets.

Variable time_Parse : string → string → option time.Time.

Implicit Types (st : loopState) (entry : logEntry.t).

(** The baseline and the offsets after one turn of the loop. *)
Lemma processEntry_offsets st entry st' :
  processEntry time_Parse st entry = inr st' →
  match entryTime time_Parse entry with
  | None =>
      start st' = start st ∧
      plotMeasurements.Timestamps (measurements st') =
        plotMeasurements.Timestamps (measurements st)
  | Some t =>
      if time.IsZero (start st) then
        start st' = t ∧
        plotMeasurements.Timestamps (measurements st') =
          plotMeasurements.Timestamps (measurements st) ++ [0%Z]
      else
        start st' = start st ∧
        ∃ latest,
          last (plotMeasurements.Timestamps (measurements st)) = Some latest ∧
          plotMeasurements.Timestamps (measurements st') =
            if bool_decide (latest ≠ time.Sub t (start st)) then
              plotMeasurements.Timestamps (measurements st)
                ++ [time.Sub t (start st)]
            else plotMeasurements.Timestamps (measurements st)
  end.
Proof.
  intros (st1 & m & H1 & H2 & ->)%processEntry_inr.
  apply recordTimestamp_cases in H1 as (_ & _ & _ & H1).
  apply recordMessage_frame in H2 as [Hts _]. simpl. rewrite Hts.
  destruct (entryTime time_Parse entry) as [t|]; [done|by subst].
Qed.

Lemma streamTimes_cons entry (rest : list (option logEntry.t)) :
  streamTimes time_Parse (Some entry :: rest) =
    match entryTime time_Parse entry with
    | Some t => t :: streamTimes time_Parse rest
    | None => streamTimes time_Parse rest
    end.
Proof. done. Qed.

(** Once the baseline is set, non-decreasing timestamps keep the offsets
    strictly increasing; [prev] is the instant of the latest offset. *)
Lemma decodeLoop_offsets_established (stream : list (option logEntry.t)) :
  ∀ st st' (prev : time.Time),
    decodeLoop time_Parse stream st = inr st' →
    time.IsZero (start st) = false →
    strictlyIncreasing (plotMeasurements.Timestamps (measurements st)) →
    last (plotMeasurements.Timestamps (measurements st)) =
      Some (time.Sub prev (start st)) →
    nonDecreasing (prev :: streamTimes time_Parse stream) →
    strictlyIncreasing (plotMeasurements.Timestamps (measurements st')) ∧
    head (plotMeasurements.Timestamps (measurements st')) =
      head (plotMeasurements.Timestamps (measurements st)).
Proof.
  induction stream as [|[entry|] rest IH]; intros st st' prev; cbn [decodeLoop];
    [by intros [= <-]| |done].
  destruct (processEntry time_Parse st entry) as [e|st1] eqn:Hstep; [done|].
  intros Hloop Hzero Hinc Hlast Hsorted.
  apply processEntry_offsets in Hstep. rewrite streamTimes_cons in Hsorted.
  destruct (entryTime time_Parse entry) as [t|].
  - rewrite Hzero in Hstep. destruct Hstep as (Hstart & latest & Hlatest & Hts).
    rewrite Hlast in Hlatest. injection Hlatest as <-.
    apply StronglySorted_cons in Hsorted as [Hprev Hsorted].
    pose proof (Forall_inv Hprev) as Hle. simpl in Hle.
    pose proof (Sub_mono _ _ (start st) Hle) as Hsub.
    case_bool_decide as Hne.
    + destruct (IH st1 st' t Hloop) as [Hinc' Hhead'].
      * by rewrite Hstart.
      * rewrite Hts. eapply strictlyIncreasing_snoc; [done..|lia].
      * by rewrite Hts, Hstart, last_snoc.
      * done.
      * split; [done|]. rewrite Hhead', Hts. apply head_snoc_nonempty.
        intros Hnil. by rewrite Hnil in Hlast.
    + assert (time.Sub prev (start st) = time.Sub t (start st)) as Heq
        by (destruct (decide (time.Sub prev (start st) = time.Sub t (start st)));
            [done|by destruct Hne]).
      destruct (IH st1 st' t Hloop) as [Hinc' Hhead'].
      * by rewrite Hstart.
      * by rewrite Hts.
      * by rewrite Hts, Hstart, Hlast, Heq.
      * done.
      * split; [done|]. by rewrite Hhead', Hts.
  - destruct Hstep as [Hstart Hts].
    destruct (IH st1 st' prev Hloop) as [Hinc' Hhead'].
    + by rewrite Hstart.
    + by rewrite Hts.
    + by rewrite Hts, Hstart.
    + done.
    + split; [done|]. by rewrite Hhead', Hts.
Qed.

(** Before the baseline is set there is no offset; the first timestamp that
    is not the zero instant sets the baseline and the offset zero. *)
Lemma decodeLoop_offsets_initial (stream : list (option logEntry.t)) :
  ∀ st st',
    decodeLoop time_Parse stream st = inr st' →
    time.IsZero (start st) = true →
    plotMeasurements.Timestamps (measurements st) = [] →
    head (streamTimes time_Parse stream) ≠ Some time.zero →
    nonDecreasing (streamTimes time_Parse stream) →
    strictlyIncreasing (plotMeasurements.Timestamps (measurements st')) ∧
    (plotMeasurements.Timestamps (measurements st') ≠ [] →
     head (plotMeasurements.Timestamps (measurements st')) = Some 0%Z).
Proof.
  induction stream as [|[entry|] rest IH]; intros st st'; cbn [decodeLoop]; [| |done].
  { intros [= <-] _ -> _ _. split; [constructor|done]. }
  destruct (processEntry time_Parse st entry) as [e|st1] eqn:Hstep; [done|].
  intros Hloop Hzero Hnil Hhead Hsorted.
  apply processEntry_offsets in Hstep. rewrite streamTimes_cons in Hhead, Hsorted.
  destruct (entryTime time_Parse entry) as [t|].
  - rewrite Hzero, Hnil in Hstep. destruct Hstep as [Hstart Hts]. simpl in Hts.
    destruct (decodeLoop_offsets_established rest st1 st' t Hloop)
      as [Hinc' Hhead'].
    + rewrite Hstart. apply bool_decide_eq_false_2. intros ->. by apply Hhead.
    + rewrite Hts. repeat constructor.
    + by rewrite Hts, Hstart, Sub_diag.
    + done.
    + split; [done|]. intros _. by rewrite Hhead', Hts.
  - destruct Hstep as [Hstart Hts]. apply (IH st1 st' Hloop); try done.
    + by rewrite Hstart.
    + by rewrite Hts.
Qed.

End Offsets.

(** ** The offsets as a function of the timestamps *)

Section OffsetsOfTimes.

Variable time_Parse : string → string → option time.Time.

Implicit Types (st : loopState) (stream : list (option logEntry.t)).

Lemma decodeLoop_offsets_from stream : ∀ st st' (latest : time.Duration),
  decodeLoop time_Parse stream st = inr st' →
  time.IsZero (start st) = false →
  last (plotMeasurements.Timestamps (measurements st)) = Some latest →
  plotMeasurements.Timestamps (measurements st') =
    plotMeasurements.Timestamps (measurements st)
      ++ coalesceFrom latest
           ((λ t, time.Sub t (start st)) <$> streamTimes time_Parse stream).
Proof.
  induction stream as [|[entry|] rest IH]; intros st st' latest;
    cbn [decodeLoop]; [|..|done].
  - intros [= <-] _ _. by rewrite app_nil_r.
  - destruct (processEntry time_Parse st entry) as [e|st1] eqn:Hstep; [done|].
    intros Hloop Hzero Hlast. apply processEntry_offsets in Hstep.
    rewrite streamTimes_cons.
    destruct (entryTime time_Parse entry) as [t|].
    + rewrite Hzero in Hstep. destruct Hstep as (Hstart & latest' & Hl & Hts).
      rewrite Hlast in Hl. injection Hl as <-.
      rewrite fmap_cons. cbn [coalesceFrom].
      case_bool_decide.
      * rewrite (IH st1 st' (time.Sub t (start st)) Hloop);
          [|by rewrite Hstart|by rewrite Hts, last_snoc].
        by rewrite Hts, Hstart, <-app_assoc.
      * rewrite (IH st1 st' latest Hloop);
          [|by rewrite Hstart|by rewrite Hts].
        by rewrite Hts, Hstart.
    + destruct Hstep as [Hstart Hts].
      rewrite (IH st1 st' latest Hloop);
        [|by rewrite Hstart|by rewrite Hts].
      by rewrite Hts, Hstart.
Qed.

Lemma decodeLoop_offsets_all stream : ∀ st st',
  decodeLoop time_Parse stream st = inr st' →
  time.IsZero (start st) = true →
  plotMeasurements.Timestamps (measurements st') =
    plotMeasurements.Timestamps (measurements st)
      ++ elapsedOffsets (streamTimes time_Parse stream).
Proof.
  induction stream as [|[entry|] rest IH]; intros st st';
    cbn [decodeLoop]; [|..|done].
  - intros [= <-] _. by rewrite app_nil_r.
  - destruct (processEntry time_Parse st entry) as [e|st1] eqn:Hstep; [done|].
    intros Hloop Hzero. apply processEntry_offsets in Hstep.
    rewrite streamTimes_cons.
    destruct (entryTime time_Parse entry) as [t|].
    + rewrite Hzero in Hstep. destruct Hstep as [Hstart Hts].
      cbn [elapsedOffsets]. destruct (time.IsZero t) eqn:Ht.
      * rewrite (IH st1 st' Hloop) by (by rewrite Hstart).
        by rewrite Hts, <-app_assoc.
      * rewrite (decodeLoop_offsets_from rest st1 st' 0%Z Hloop);
          [|by rewrite Hstart|by rewrite Hts, last_snoc].
        by rewrite Hts, Hstart, <-app_assoc.
    + destruct Hstep as [Hstart Hts].
      rewrite (IH st1 st' Hloop) by (by rewrite Hstart). by rewrite Hts.
Qed.

Lemma coalesceFrom_length (offsets : list time.Duration) :
  ∀ latest, length (coalesceFrom latest offsets) ≤ length offsets.
Proof.
  induction offsets as [|offset rest IH]; intros latest; simpl; [done|].
  case_bool_decide; simpl.
  - specialize (IH offset). lia.
  - specialize (IH latest). lia.
Qed.

Lemma elapsedOffsets_length (times : list time.Time) :
  length (elapsedOffsets times) ≤ length times.
Proof.
  induction times as [|t rest IH]; simpl; [done|].
  destruct (time.IsZero t); [lia|].
  pose proof (coalesceFrom_length ((λ u, time.Sub u t) <$> rest) 0%Z) as H.
  rewrite length_fmap in H. lia.
Qed.

End OffsetsOfTimes.

(** What the loop leaves when it starts from nothing: the offsets of the
    timestamps, and no series without a row. *)
Lemma decodeLoop_initial
    (time_Parse : string → string → option time.Time)
    (stream : list (option logEntry.t)) (st : loopState) :
  decodeLoop time_Parse stream initialState = inr st →
  plotMeasurements.Timestamps (measurements st) =
    elapsedOffsets (streamTimes time_Parse stream) ∧
  ∀ name series,
    plotMeasurements.Data (measurements st) !! name = Some series →
    series ≠ [].
Proof.
  intros Hloop. split.
  - by rewrite (decodeLoop_offsets_all time_Parse stream _ _ Hloop).
  - intros name series Hs.
    pose proof (decodeLoop_series time_Parse stream _ _ name Hloop) as Hseries.
    pose proof (decodeLoop_recorded time_Parse stream _ _ name Hloop) as Hrec.
    simpl in Hseries, Hrec. rewrite lookup_total_empty in Hseries.
    rewrite lookup_empty in Hrec. simpl in Hseries.
    rewrite lookup_total_alt, Hs in Hseries. simpl in Hseries. subst series.
    destruct (proj1 Hrec) as [[? [=]]|Hne]; [by rewrite Hs|done].
Qed.

(** The common length is not zero unless a sequence is empty. *)
Lemma minLength_positive (m : plotMeasurements.t) :
  plotMeasurements.Timestamps m ≠ [] →
  (∀ name series,
     plotMeasurements.Data m !! name = Some series → series ≠ []) →
  0 < minLength m.
Proof.
  intros Hts Hdata.
  destruct (minLength_attained m) as [->|(name & series & Hs & ->)].
  - destruct (plotMeasurements.Timestamps m); [done|simpl; lia].
  - specialize (Hdata _ _ Hs). destruct series; [done|simpl; lia].
Qed.

(** C2, amended. For every file [processFile] accepts: when the file has a
    timestamped record the elapsed offsets of the result start at zero, and
    without one there is no offset; and when the timestamps never go back
    and the first one is not the zero instant, the offsets are strictly
    increasing. *)
Theorem offsets_strictly_increasing
    (time_Parse : string → string → option time.Time)
    (w : World.t) (path : string) (stream : list (option logEntry.t))
    (m : plotMeasurements.t) :
  World.files w !! path = Some stream →
  processFile time_Parse w path = inr m →
  (streamTimes time_Parse stream ≠ [] →
   head (plotMeasurements.Timestamps m) = Some 0%Z) ∧
  (streamTimes time_Parse stream = [] →
   plotMeasurements.Timestamps m = []) ∧
  (nonDecreasing (streamTimes time_Parse stream) →
   head (streamTimes time_Parse stream) ≠ Some time.zero →
   strictlyIncreasing (plotMeasurements.Timestamps m)).
Proof.
  intros Hfile Hm.
  unfold processFile in Hm. rewrite Hfile in Hm.
  apply bind_inr in Hm as (st & Hloop & Hm).
  case_bool_decide; [done|]. injection Hm as <-.
  destruct (decodeLoop_initial time_Parse stream st Hloop) as [Hts Hdata].
  unfold reconcile; simpl. rewrite reconcileLength_minLength. split_and!.
  - intros Htimes.
    assert (plotMeasurements.Timestamps (measurements st) ≠ []) as Hne.
    { rewrite Hts. by destruct (streamTimes time_Parse stream). }
    pose proof (minLength_positive (measurements st) Hne Hdata) as Hpos.
    rewrite Hts.
    destruct (streamTimes time_Parse stream) as [|t times]; [done|].
    destruct (minLength (measurements st)); [lia|done].
  - intros Htimes. rewrite Hts, Htimes. apply take_nil.
  - intros Hsorted Hhead.
    destruct (decodeLoop_offsets_initial time_Parse stream initialState st
                Hloop) as [Hinc _]; try done.
    by apply strictlyIncreasing_take.
Qed.

Lemma offsets_strictly_increasing_witness :
  ∃ m, processFile Samples.parse Samples.world "a.log" = inr m ∧
       head (plotMeasurements.Timestamps m) = Some 0%Z ∧
       strictlyIncreasing (plotMeasurements.Timestamps m).
Proof.
  destruct (processFile Samples.parse Samples.world "a.log") as [e|m] eqn:Hm.
  { vm_compute in Hm. discriminate Hm. }
  exists m. split; [reflexivity|].
  destruct (offsets_strictly_increasing Samples.parse Samples.world "a.log"
              Samples.aLog m) as (Hzero & _ & Hinc).
  - vm_compute. reflexivity.
  - exact Hm.
  - split.
    + apply Hzero. vm_compute. discriminate.
    + apply Hinc.
      * apply (bool_decide_unpack _). vm_compute. exact I.
      * vm_compute. discriminate.
Defined.

(** C2 as stated fails: a log whose third timestamp is earlier than its
    second is accepted with offsets that go back, and a log without
    timestamped record is accepted with no offset at all. *)
Lemma offsets_not_strictly_increasing :
  (∃ m, processFile Samples.parse Samples.world "backwards.log" = inr m ∧
        plotMeasurements.Timestamps m = [0; 2000000000; 1000000000]%Z ∧
        ¬ strictlyIncreasing (plotMeasurements.Timestamps m)) ∧
  (∃ m, processFile Samples.parse Samples.world "marker-only.log" = inr m ∧
        head (plotMeasurements.Timestamps m) = None).
Proof.
  split.
  - eexists. split; [vm_compute; reflexivity|]. split; [reflexivity|].
    intros H. apply (bool_decide_pack _) in H. vm_compute in H. exact H.
  - eexists. split; [vm_compute; reflexivity|]. reflexivity.
Qed.

(** ** Coalescing of equal offsets *)

Section Coalescing.

Variable time_Parse : string → string → option time.Time.

Implicit Types (st : loopState) (entry : logEntry.t).

(** Two timestamped records in a row whose offsets are equal share one
    entry of the offset sequence, as soon as the baseline is not the zero
    instant. *)
Lemma equal_offsets_coalesce st entry1 entry2 st1 st2 (t1 t2 : time.Time) :
  time.IsZero (start st) = false →
  entryTime time_Parse entry1 = Some t1 →
  entryTime time_Parse entry2 = Some t2 →
  time.Sub t1 (start st) = time.Sub t2 (start st) →
  processEntry time_Parse st entry1 = inr st1 →
  processEntry time_Parse st1 entry2 = inr st2 →
  last (plotMeasurements.Timestamps (measurements st1)) =
    Some (time.Sub t1 (start st)) ∧
  plotMeasurements.Timestamps (measurements st2) =
    plotMeasurements.Timestamps (measurements st1).
Proof.
  intros Hzero Ht1 Ht2 Heq H1%processEntry_offsets H2%processEntry_offsets.
  rewrite Ht1, Hzero in H1. destruct H1 as (Hstart & latest & Hlast & Hts).
  assert (last (plotMeasurements.Timestamps (measurements st1)) =
            Some (time.Sub t1 (start st))) as Hlast1.
  { rewrite Hts. case_bool_decide as Hne; [by rewrite last_snoc|].
    rewrite Hlast. f_equal.
    destruct (decide (latest = time.Sub t1 (start st))); [done|by destruct Hne]. }
  split; [done|].
  rewrite Ht2, Hstart, Hzero in H2. destruct H2 as (_ & latest' & Hlast' & ->).
  rewrite Hlast1 in Hlast'. injection Hlast' as <-.
  rewrite bool_decide_eq_false_2; [done|]. intros Hne. by apply Hne.
Qed.

(** The same for the record that sets the baseline and the one after it. *)
Lemma baseline_offset_coalesces st entry1 entry2 st1 st2 (t1 t2 : time.Time) :
  time.IsZero (start st) = true →
  t1 ≠ time.zero →
  entryTime time_Parse entry1 = Some t1 →
  entryTime time_Parse entry2 = Some t2 →
  time.Sub t2 t1 = 0%Z →
  processEntry time_Parse st entry1 = inr st1 →
  processEntry time_Parse st1 entry2 = inr st2 →
  last (plotMeasurements.Timestamps (measurements st1)) = Some 0%Z ∧
  plotMeasurements.Timestamps (measurements st2) =
    plotMeasurements.Timestamps (measurements st1).
Proof.
  intros Hzero Hne Ht1 Ht2 Heq H1%processEntry_offsets H2%processEntry_offsets.
  rewrite Ht1, Hzero in H1. destruct H1 as [Hstart Hts].
  assert (last (plotMeasurements.Timestamps (measurements st1)) = Some 0%Z)
    as Hlast1 by (by rewrite Hts, last_snoc).
  split; [done|].
  assert (time.IsZero (start st1) = false) as Hzero1
    by (rewrite Hstart; by apply bool_decide_eq_false_2).
  rewrite Ht2, Hzero1 in H2. destruct H2 as (_ & latest & Hlast & ->).
  rewrite Hlast1 in Hlast. injection Hlast as <-.
  rewrite Hstart, Heq. by rewrite bool_decide_eq_false_2 by (by intros []).
Qed.

End Coalescing.

(** C8, at the input where the code departs from it. The zero value of
    [start] stands for no baseline yet, so a first timestamp that is the
    zero instant leaves [start.IsZero()] true: the next timestamped record
    is taken for the first one again and adds offset zero a second time. *)
Theorem zero_instant_offset_twice :
  streamTimes Samples.parse Samples.yearOneLog = [0; 0]%Z ∧
  ∃ m, processFile Samples.parse Samples.world "year-one.log" = inr m ∧
       plotMeasurements.Timestamps m = [0; 0]%Z.
Proof.
  split; [vm_compute; reflexivity|].
  eexists. split; [vm_compute; reflexivity|]. reflexivity.
Qed.

(** C3, amended. A timestamped record whose elapsed offset equals the latest
    offset, once the baseline is set, adds no offset and leaves the baseline
    alone; its sample is not dropped: the tuple its message stands for is
    appended to that metric's series as for any other record. *)
Theorem equal_offset_keeps_sample
    (time_Parse : string → string → option time.Time)
    (st : loopState) (entry : logEntry.t) (t : time.Time) :
  entryTime time_Parse entry = Some t →
  time.IsZero (start st) = false →
  last (plotMeasurements.Timestamps (measurements st)) =
    Some (time.Sub t (start st)) →
  recordTimestamp time_Parse st entry = inr st ∧
  (isMarker entry = false → ∃ st', processEntry time_Parse st entry = inr st') ∧
  ∀ st',
    processEntry time_Parse st entry = inr st' →
    start st' = start st ∧
    plotMeasurements.Timestamps (measurements st') =
      plotMeasurements.Timestamps (measurements st) ∧
    plotMeasurements.Data (measurements st') =
      match metricRow entry with
      | Some (name, row) =>
          <[name := (plotMeasurements.Data (measurements st) !!! name) ++ [row]]>
            (plotMeasurements.Data (measurements st))
      | None => plotMeasurements.Data (measurements st)
      end.
Proof.
  intros Ht Hzero Hlast.
  assert (recordTimestamp time_Parse st entry = inr st) as Hrec.
  { unfold entryTime in Ht. unfold recordTimestamp.
    case_bool_decide; [|done]. rewrite Ht, Hzero, Hlast.
    by rewrite bool_decide_eq_false_2 by (by intros []). }
  split_and!.
  - done.
  - intros Hmk. unfold processEntry. rewrite Hrec. simpl.
    rewrite recordMessage_metric by done. simpl. eauto.
  - intros st' (st1 & m & H1 & H2 & ->)%processEntry_inr.
    rewrite Hrec in H1. injection H1 as <-.
    apply recordMessage_frame in H2 as [Hts Hdata]. done.
Qed.

Lemma equal_offset_keeps_sample_witness :
  ∃ st',
    processEntry Samples.parse Samples.sharedState Samples.sharedEntry = inr st' ∧
    plotMeasurements.Timestamps (measurements st') = [0%Z] ∧
    plotMeasurements.Data (measurements st') !! "set rate" = Some [[10%float]].
Proof.
  destruct (equal_offset_keeps_sample Samples.parse Samples.sharedState
              Samples.sharedEntry (Samples.t0 + 1000000000)%Z)
    as (_ & Hex & Hall).
  - vm_compute. reflexivity.
  - vm_compute. reflexivity.
  - vm_compute. reflexivity.
  - destruct Hex as [st' Hst']; [reflexivity|].
    exists st'. split; [exact Hst'|].
    destruct (Hall st' Hst') as (_ & -> & ->).
    split; [reflexivity|]. vm_compute. reflexivity.
Defined.

(** C3 as stated fails. After the first two records of the log the latest
    offset is zero; the third record has the timestamp of the second, hence
    the same offset; it adds no offset, yet the result holds its sample in
    the series of its metric, which was empty before. *)
Lemma equal_offset_sample_not_dropped :
  decodeLoop Samples.parse (take 2 Samples.sharedLog) initialState =
    inr Samples.sharedState ∧
  Samples.sharedLog !! 2 = Some (Some Samples.sharedEntry) ∧
  entryTime Samples.parse Samples.sharedEntry =
    Some (Samples.t0 + 1000000000)%Z ∧
  last (plotMeasurements.Timestamps (measurements Samples.sharedState)) =
    Some (time.Sub (Samples.t0 + 1000000000)%Z (start Samples.sharedState)) ∧
  plotMeasurements.Data (measurements Samples.sharedState) !! "set rate" = None ∧
  ∃ m, processFile Samples.parse Samples.world "shared.log" = inr m ∧
       plotMeasurements.Timestamps m = [0%Z] ∧
       plotMeasurements.Data m !! "set rate" = Some [[10%float]].
Proof.
  split_and!; try (vm_compute; reflexivity).
  eexists. split; [vm_compute; reflexivity|].
  split; [reflexivity|vm_compute; reflexivity].
Qed.

(** ** The marker record *)

Section Markers.

Variable time_Parse : string → string → option time.Time.

Implicit Types (st : loopState) (entry : logEntry.t).

Lemma markers_cons entry (rest : list (option logEntry.t)) :
  markers (Some entry :: rest) =
    if isMarker entry then entry :: markers rest else markers rest.
Proof. done. Qed.

Lemma processEntry_metric st entry :
  wellFormed time_Parse (Some entry) = true →
  hasOffset st →
  isMarker entry = false →
  ∃ st',
    processEntry time_Parse st entry = inr st' ∧
    plotMeasurements.Engine (measurements st') =
      plotMeasurements.Engine (measurements st) ∧
    plotMeasurements.Config (measurements st') =
      plotMeasurements.Config (measurements st).
Proof.
  intros Hwf Hst Hmk.
  destruct (recordTimestamp_total time_Parse st entry Hwf Hst) as [st1 H1].
  destruct (recordTimestamp_cases _ _ _ _ H1) as (He & Hc & _).
  destruct (recordMessage (measurements st1) entry) as [e|m] eqn:H2.
  { by rewrite recordMessage_metric in H2. }
  destruct (recordMessage_keeps_marker _ _ _ Hmk H2) as [He' Hc'].
  exists (mkLoop m (start st1)). split.
  - apply processEntry_inr. eauto.
  - simpl. by rewrite He', Hc'.
Qed.

Lemma processEntry_first_marker st entry :
  wellFormed time_Parse (Some entry) = true →
  hasOffset st →
  isMarker entry = true →
  plotMeasurements.Engine (measurements st) = "" →
  ∃ st',
    processEntry time_Parse st entry = inr st' ∧
    plotMeasurements.Engine (measurements st') = logEntry.Engine entry ∧
    plotMeasurements.Config (measurements st') = markerConfig entry.
Proof.
  intros Hwf Hst Hmk Hengine.
  destruct (recordTimestamp_total time_Parse st entry Hwf Hst) as [st1 H1].
  destruct (recordTimestamp_cases _ _ _ _ H1) as (He & _).
  eexists. split.
  - apply processEntry_inr. exists st1. eexists. split; [done|]. split; [|done].
    rewrite recordMessage_marker by done.
    rewrite bool_decide_eq_false_2; [done|]. rewrite He, Hengine. by intros [].
  - done.
Qed.

Lemma processEntry_second_marker st entry :
  wellFormed time_Parse (Some entry) = true →
  hasOffset st →
  isMarker entry = true →
  plotMeasurements.Engine (measurements st) ≠ "" →
  processEntry time_Parse st entry = inl DuplicateMarker.
Proof.
  intros Hwf Hst Hmk Hengine.
  destruct (recordTimestamp_total time_Parse st entry Hwf Hst) as [st1 H1].
  destruct (recordTimestamp_cases _ _ _ _ H1) as (He & _).
  unfold processEntry. rewrite H1. simpl.
  rewrite recordMessage_marker by done.
  rewrite bool_decide_eq_true_2; [done|]. by rewrite He.
Qed.

(** After a marker with an engine name: any further marker is a duplicate. *)
Lemma decodeLoop_marked (stream : list (option logEntry.t)) :
  ∀ st,
    Forall (λ r, wellFormed time_Parse r = true) stream →
    hasOffset st →
    plotMeasurements.Engine (measurements st) ≠ "" →
    match markers stream with
    | [] =>
        ∃ st',
          decodeLoop time_Parse stream st = inr st' ∧
          plotMeasurements.Engine (measurements st') =
            plotMeasurements.Engine (measurements st) ∧
          plotMeasurements.Config (measurements st') =
            plotMeasurements.Config (measurements st)
    | _ :: _ => decodeLoop time_Parse stream st = inl DuplicateMarker
    end.
Proof.
  induction stream as [|[entry|] rest IH]; intros st Hwf Hst Hengine.
  - simpl. eauto.
  - apply Forall_cons in Hwf as [Hwf Hrest].
    rewrite markers_cons. cbn [decodeLoop].
    destruct (isMarker entry) eqn:Hmk.
    + by rewrite processEntry_second_marker.
    + destruct (processEntry_metric st entry Hwf Hst Hmk)
        as (st1 & Hstep & He & Hc).
      rewrite Hstep. rewrite <-He, <-Hc. apply IH; [done| |by rewrite He].
      by eapply processEntry_hasOffset.
  - by apply Forall_cons in Hwf as [[=] _].
Qed.

(** Before any marker. *)
Lemma decodeLoop_unmarked (stream : list (option logEntry.t)) :
  ∀ st,
    Forall (λ r, wellFormed time_Parse r = true) stream →
    Forall (λ entry, logEntry.Engine entry ≠ "") (markers stream) →
    hasOffset st →
    plotMeasurements.Engine (measurements st) = "" →
    match markers stream with
    | [] =>
        ∃ st',
          decodeLoop time_Parse stream st = inr st' ∧
          plotMeasurements.Engine (measurements st') = ""
    | [entry] =>
        ∃ st',
          decodeLoop time_Parse stream st = inr st' ∧
          plotMeasurements.Engine (measurements st') = logEntry.Engine entry ∧
          plotMeasurements.Config (measurements st') = markerConfig entry
    | _ :: _ :: _ => decodeLoop time_Parse stream st = inl DuplicateMarker
    end.
Proof.
  induction stream as [|[entry|] rest IH]; intros st Hwf Hnamed Hst Hengine.
  - simpl. eauto.
  - apply Forall_cons in Hwf as [Hwf Hrest].
    rewrite markers_cons in Hnamed |- *. cbn [decodeLoop].
    destruct (isMarker entry) eqn:Hmk.
    + apply Forall_cons in Hnamed as [Hname Hnamed].
      destruct (processEntry_first_marker st entry Hwf Hst Hmk Hengine)
        as (st1 & Hstep & He & Hc).
      rewrite Hstep.
      assert (hasOffset st1) as Hst1 by (by eapply processEntry_hasOffset).
      assert (plotMeasurements.Engine (measurements st1) ≠ "") as Hengine1
        by (by rewrite He).
      pose proof (decodeLoop_marked rest st1 Hrest Hst1 Hengine1) as Hloop.
      destruct (markers rest) as [|entry2 more]; [|done].
      destruct Hloop as (st' & Hloop & He' & Hc').
      exists st'. by rewrite He', Hc'.
    + destruct (processEntry_metric st entry Hwf Hst Hmk)
        as (st1 & Hstep & He & Hc).
      rewrite Hstep. apply IH; [done..| |by rewrite He].
      by eapply processEntry_hasOffset.
  - by apply Forall_cons in Hwf as [[=] _].
Qed.

(** The outcome of [processFile] by the number of marker records. *)
Lemma processFile_by_markers (w : World.t) (path : string)
    (stream : list (option logEntry.t)) :
  World.files w !! path = Some stream →
  Forall (λ r, wellFormed time_Parse r = true) stream →
  Forall (λ entry, logEntry.Engine entry ≠ "") (markers stream) →
  match markers stream with
  | [] => processFile time_Parse w path = inl MissingMarker
  | [entry] =>
      ∃ m,
        processFile time_Parse w path = inr m ∧
        plotMeasurements.Engine m = logEntry.Engine entry ∧
        plotMeasurements.Config m = markerConfig entry
  | _ :: _ :: _ => processFile time_Parse w path = inl DuplicateMarker
  end.
Proof.
  intros Hfile Hwf Hnamed. unfold processFile. rewrite Hfile.
  pose proof (decodeLoop_unmarked stream initialState Hwf Hnamed
                initialState_hasOffset eq_refl) as Hloop.
  destruct (markers stream) as [|entry [|entry2 more]].
  - destruct Hloop as (st' & -> & He). simpl.
    by rewrite bool_decide_eq_true_2.
  - destruct Hloop as (st' & -> & He & Hc). simpl.
    apply Forall_cons in Hnamed as [Hname _].
    rewrite bool_decide_eq_false_2 by (by rewrite He). eauto.
  - by rewrite Hloop.
Qed.

End Markers.

(** The outcome by the number of marker records, when every marker record
    names an engine. For a file that opens, whose records all decode with
    timestamps that parse, and whose marker records all name an engine:
    [processFile] fails with [MissingMarker] exactly when the file has no
    marker record, with [DuplicateMarker] exactly when it has two or more,
    and returns measurements exactly when it has one, with the engine and
    the configuration of that record. *)
Lemma processFile_marker
    (time_Parse : string → string → option time.Time)
    (w : World.t) (path : string) (stream : list (option logEntry.t)) :
  World.files w !! path = Some stream →
  Forall (λ r, wellFormed time_Parse r = true) stream →
  Forall (λ entry, logEntry.Engine entry ≠ "") (markers stream) →
  (processFile time_Parse w path = inl MissingMarker ↔ markers stream = []) ∧
  (processFile time_Parse w path = inl DuplicateMarker ↔
     2 ≤ length (markers stream)) ∧
  ((∃ m, processFile time_Parse w path = inr m) ↔
     length (markers stream) = 1) ∧
  (∀ m, processFile time_Parse w path = inr m →
     ∃ entry,
       markers stream = [entry] ∧
       plotMeasurements.Engine m = logEntry.Engine entry ∧
       plotMeasurements.Config m = markerConfig entry).
Proof.
  intros Hfile Hwf Hnamed.
  pose proof (processFile_by_markers time_Parse w path stream Hfile Hwf Hnamed)
    as H.
  destruct (markers stream) as [|entry [|entry2 more]]; simpl.
  - rewrite H. split_and!; try (split; (done || lia)).
    + split; [by intros [m [=]]|done].
    + done.
  - destruct H as (m & H & He & Hc). rewrite H. split_and!.
    + split; done.
    + split; [done|lia].
    + split; [done|eauto].
    + intros m' [= <-]. eauto.
  - rewrite H. split_and!.
    + split; done.
    + split; [lia|done].
    + split; [by intros [m [=]]|done].
    + done.
Qed.

Lemma processFile_marker_witness :
  ∃ m entry,
    processFile Samples.parse Samples.world "a.log" = inr m ∧
    markers Samples.aLog = [entry] ∧
    plotMeasurements.Engine m = logEntry.Engine entry.
Proof.
  destruct (processFile_marker Samples.parse Samples.world "a.log" Samples.aLog)
    as (_ & _ & [_ Hone] & Hrun).
  - vm_compute. reflexivity.
  - apply (bool_decide_unpack _). vm_compute. exact I.
  - apply (bool_decide_unpack _). vm_compute. exact I.
  - destruct Hone as [m Hm]; [reflexivity|].
    destruct (Hrun m Hm) as (entry & Hmk & He & _).
    exists m, entry. split; [exact Hm|]. split; [exact Hmk|exact He].
Defined.

(** C4, at the inputs where the code departs from it. The loop tells
    whether a marker record was seen by the engine name being set, so a
    marker record without engine name counts as none. A log that decodes
    and whose only record is such a marker is refused for a missing marker,
    although it has a marker record; a log that decodes and holds such a
    marker and then a named one is accepted, although it has two marker
    records, and the result carries the engine and the configuration of the
    second. *)
Theorem unnamed_marker_not_counted :
  (World.files Samples.world !! "no-engine.log" = Some Samples.noEngineLog ∧
   Forall (λ r, wellFormed Samples.parse r = true) Samples.noEngineLog ∧
   length (markers Samples.noEngineLog) = 1 ∧
   processFile Samples.parse Samples.world "no-engine.log" =
     inl MissingMarker) ∧
  (World.files Samples.world !! "unnamed-first.log" =
     Some Samples.unnamedFirstLog ∧
   Forall (λ r, wellFormed Samples.parse r = true) Samples.unnamedFirstLog ∧
   length (markers Samples.unnamedFirstLog) = 2 ∧
   ∃ m,
     processFile Samples.parse Samples.world "unnamed-first.log" = inr m ∧
     plotMeasurements.Engine m = "X" ∧
     plotMeasurements.Config m = plotConfig.mk 1 1 64 true).
Proof.
  split; split_and!; try (vm_compute; reflexivity);
    try (apply (bool_decide_unpack _); vm_compute; exact I).
  eexists. split; [vm_compute; reflexivity|]. split; reflexivity.
Qed.

(** ** Grouping the runs and writing the page *)

Section Grouping.

Variable dataIntervalUnit : time.Duration.
Variable time_Parse : string → string → option time.Time.
Variable w : World.t.

Implicit Types (paths : list string)
  (data : gmap plotConfig.t (list plotMeasurements.t)).

Lemma fileRuns_cons_inr path paths (m : plotMeasurements.t) :
  processFile time_Parse w path = inr m →
  fileRuns time_Parse w (path :: paths) = m :: fileRuns time_Parse w paths.
Proof. unfold fileRuns. simpl. by intros ->. Qed.

(** The loop of [Run] succeeds exactly when every file is accepted. *)
Lemma groupFiles_accepts paths : ∀ data,
  Forall (λ path, ∃ m, processFile time_Parse w path = inr m) paths →
  ∃ data', groupFiles time_Parse w paths data = inr data'.
Proof.
  induction paths as [|path rest IH]; intros data Hall; simpl; [by eauto|].
  apply Forall_cons in Hall as [[m ->] Hrest]. simpl. by apply IH.
Qed.

Lemma groupFiles_accepted paths : ∀ data data',
  groupFiles time_Parse w paths data = inr data' →
  Forall (λ path, ∃ m, processFile time_Parse w path = inr m) paths.
Proof.
  induction paths as [|path rest IH]; intros data data'; simpl; [done|].
  intros (m & Hm & Hrest)%bind_inr. constructor; [by eauto|by eapply IH].
Qed.

(** It stops at the first file that is refused, with that file's error. *)
Lemma groupFiles_refused (before after : list string) path (e : error) :
  ∀ data,
    Forall (λ q, ∃ m, processFile time_Parse w q = inr m) before →
    processFile time_Parse w path = inl e →
    groupFiles time_Parse w (before ++ path :: after) data = inl e.
Proof.
  induction before as [|q before IH]; intros data Hall Hpath; simpl.
  - by rewrite Hpath.
  - apply Forall_cons in Hall as [[m ->] Hall]. simpl. by apply IH.
Qed.

Lemma first_refused paths path (e : error) :
  path ∈ paths →
  processFile time_Parse w path = inl e →
  ∃ before path' after e',
    paths = before ++ path' :: after ∧
    Forall (λ q, ∃ m, processFile time_Parse w q = inr m) before ∧
    processFile time_Parse w path' = inl e'.
Proof.
  induction paths as [|q rest IH]; intros Hin Hpath.
  - by apply elem_of_nil in Hin.
  - destruct (processFile time_Parse w q) as [e'|m] eqn:Hq.
    + exists [], q, rest, e'. by split_and!.
    + apply elem_of_cons in Hin as [->|Hin]; [congruence|].
      destruct (IH Hin Hpath) as (before & path' & after & e' & -> & Hall & H).
      exists (q :: before), path', after, e'. split_and!; [done| |done].
      constructor; eauto.
Qed.

(** Each group is the runs of its configuration, in the order of the
    files. *)
Lemma groupFiles_groups paths : ∀ data data',
  groupFiles time_Parse w paths data = inr data' →
  ∀ c, data' !!! c = data !!! c ++ runsOf c (fileRuns time_Parse w paths).
Proof.
  induction paths as [|path rest IH]; intros data data'; cbn [groupFiles].
  - intros [= <-] c. by rewrite app_nil_r.
  - intros (m & Hm & Hrest)%bind_inr c.
    rewrite (IH _ _ Hrest c), (fileRuns_cons_inr _ _ _ Hm).
    unfold runsOf. rewrite filter_cons.
    destruct (decide (plotMeasurements.Config m = c)) as [->|Hne].
    + by rewrite lookup_total_insert_eq, <-app_assoc.
    + by rewrite lookup_total_insert_ne.
Qed.

Lemma groupFiles_dom paths : ∀ data data',
  groupFiles time_Parse w paths data = inr data' →
  ∀ c, c ∈ dom data' ↔
       c ∈ dom data ∨
       ∃ m, m ∈ fileRuns time_Parse w paths ∧ plotMeasurements.Config m = c.
Proof.
  induction paths as [|path rest IH]; intros data data'; cbn [groupFiles].
  - intros [= <-] c. split; [by left|]. intros [?|(m & Hm & _)]; [done|].
    by apply elem_of_nil in Hm.
  - intros (m & Hm & Hrest)%bind_inr c.
    rewrite (IH _ _ Hrest c), (fileRuns_cons_inr _ _ _ Hm), dom_insert.
    rewrite elem_of_union, elem_of_singleton. split.
    + intros [[->|?]|(m' & Hm' & Hc)]; [|by left|].
      * right. exists m. split; [by left|done].
      * right. exists m'. split; [by right|done].
    + intros [?|(m' & [->|Hm']%elem_of_cons & Hc)]; [by left;right| |].
      * by left; left.
      * right. eauto.
Qed.

Lemma fileRuns_length paths :
  Forall (λ path, ∃ m, processFile time_Parse w path = inr m) paths →
  length (fileRuns time_Parse w paths) = length paths.
Proof.
  induction 1 as [|path rest [m Hm] _ IH]; [done|].
  rewrite (fileRuns_cons_inr _ _ _ Hm). simpl. by rewrite IH.
Qed.

Lemma fileRuns_accepted paths (m : plotMeasurements.t) :
  m ∈ fileRuns time_Parse w paths →
  ∃ path, path ∈ paths ∧ processFile time_Parse w path = inr m.
Proof.
  unfold fileRuns. intros (path & Hin & H)%list_elem_of_omap.
  exists path. split; [done|].
  destruct (processFile time_Parse w path); by simplify_eq.
Qed.

End Grouping.

(** C9. When [Run] has read its files, the group of a configuration holds
    exactly the runs with that configuration, in the order in which the
    files were processed; two runs whose writers, readers, size and vary are
    equal are in one group; and processing the files in another order gives
    the same groups with the same members. *)
Theorem Run_groups_by_config
    (time_Parse : string → string → option time.Time)
    (w : World.t) (paths : list string)
    (data : gmap plotConfig.t (list plotMeasurements.t)) :
  groupFiles time_Parse w paths ∅ = inr data →
  let runs := fileRuns time_Parse w paths in
  length runs = length paths ∧
  (∀ c, data !!! c = runsOf c runs) ∧
  (∀ c, c ∈ dom data ↔ ∃ m, m ∈ runs ∧ plotMeasurements.Config m = c) ∧
  (∀ m1 m2,
     m1 ∈ runs → m2 ∈ runs →
     plotConfig.Writers (plotMeasurements.Config m1) =
       plotConfig.Writers (plotMeasurements.Config m2) →
     plotConfig.Readers (plotMeasurements.Config m1) =
       plotConfig.Readers (plotMeasurements.Config m2) →
     plotConfig.Size (plotMeasurements.Config m1) =
       plotConfig.Size (plotMeasurements.Config m2) →
     plotConfig.Vary (plotMeasurements.Config m1) =
       plotConfig.Vary (plotMeasurements.Config m2) →
     ∃ group,
       data !! plotMeasurements.Config m1 = Some group ∧
       m1 ∈ group ∧ m2 ∈ group) ∧
  (∀ paths',
     paths' ≡ₚ paths →
     ∃ data',
       groupFiles time_Parse w paths' ∅ = inr data' ∧
       dom data' = dom data ∧
       ∀ c, data' !!! c ≡ₚ data !!! c).
Proof.
  intros Hrun runs.
  pose proof (groupFiles_accepted _ _ _ _ _ Hrun) as Hall.
  assert (∀ c, data !!! c = runsOf c runs) as Hgroups.
  { intros c. rewrite (groupFiles_groups _ _ _ _ _ Hrun c).
    by rewrite lookup_total_empty. }
  assert (∀ c, c ∈ dom data ↔
               ∃ m, m ∈ runs ∧ plotMeasurements.Config m = c) as Hdom.
  { intros c. rewrite (groupFiles_dom _ _ _ _ _ Hrun c), dom_empty.
    split; [intros [[]%elem_of_empty|?]; done|by right]. }
  split_and!.
  - by apply fileRuns_length.
  - done.
  - done.
  - intros m1 m2 Hm1 Hm2 Hw Hr Hs Hv.
    assert (plotMeasurements.Config m2 = plotMeasurements.Config m1) as Hc.
    { destruct (plotMeasurements.Config m1), (plotMeasurements.Config m2).
      simpl in *. by subst. }
    assert (plotMeasurements.Config m1 ∈ dom data) as [group Hgroup]%elem_of_dom
      by (apply Hdom; eauto).
    exists group. split; [done|].
    pose proof (Hgroups (plotMeasurements.Config m1)) as Hg.
    rewrite lookup_total_alt, Hgroup in Hg. simpl in Hg. rewrite Hg.
    unfold runsOf. by rewrite !list_elem_of_filter.
  - intros paths' Hperm.
    assert (Forall (λ path, ∃ m, processFile time_Parse w path = inr m) paths')
      as Hall' by (by rewrite Hperm).
    destruct (groupFiles_accepts time_Parse w paths' ∅ Hall') as [data' Hrun'].
    exists data'. split; [done|].
    assert (fileRuns time_Parse w paths' ≡ₚ runs) as Hruns
      by (unfold runs, fileRuns; by rewrite Hperm).
    split.
    + apply set_eq. intros c.
      rewrite Hdom, (groupFiles_dom _ _ _ _ _ Hrun' c), dom_empty.
      setoid_rewrite Hruns.
      split; [intros [[]%elem_of_empty|?]; done|by right].
    + intros c. rewrite Hgroups, (groupFiles_groups _ _ _ _ _ Hrun' c).
      rewrite lookup_total_empty. simpl. unfold runsOf. by rewrite Hruns.
Qed.

Lemma Run_groups_by_config_witness :
  ∃ data,
    groupFiles Samples.parse Samples.world ["a.log"; "c.log"; "b.log"] ∅
      = inr data ∧
    plotMeasurements.Engine <$> data !!! plotConfig.mk 2 4 1024 false
      = ["X"; "Y"].
Proof.
  destruct (groupFiles_accepts Samples.parse Samples.world
              ["a.log"; "c.log"; "b.log"] ∅) as [data Hrun].
  { repeat constructor; eexists; vm_compute; reflexivity. }
  exists data. split; [exact Hrun|].
  destruct (Run_groups_by_config Samples.parse Samples.world
              ["a.log"; "c.log"; "b.log"] data Hrun) as (_ & Hgroups & _).
  rewrite Hgroups. vm_compute. reflexivity.
Defined.

(** C5. [Run] stops at the first file that [processFile] refuses and returns
    that file's error without touching the output file; so when any file is
    refused, [Run] fails with the error of a refused file and the output
    file is neither created nor written; and when the output file was
    created or written, every file was accepted and reconciled. *)
Theorem Run_failure_writes_nothing
    (dataIntervalUnit : time.Duration)
    (time_Parse : string → string → option time.Time)
    (w : World.t) (p : Plot.t) :
  (∀ before path after e,
     Plot.Files p = before ++ path :: after →
     Forall (λ q, ∃ m, processFile time_Parse w q = inr m) before →
     processFile time_Parse w path = inl e →
     Run dataIntervalUnit time_Parse w p = (Some e, [])) ∧
  (∀ path e,
     path ∈ Plot.Files p →
     processFile time_Parse w path = inl e →
     ∃ path' e',
       path' ∈ Plot.Files p ∧
       processFile time_Parse w path' = inl e' ∧
       Run dataIntervalUnit time_Parse w p = (Some e', [])) ∧
  ((Run dataIntervalUnit time_Parse w p).2 ≠ [] →
   Forall (λ path, ∃ m, processFile time_Parse w path = inr m ∧ reconciled m)
     (Plot.Files p)).
Proof.
  assert (∀ before path after e,
            Plot.Files p = before ++ path :: after →
            Forall (λ q, ∃ m, processFile time_Parse w q = inr m) before →
            processFile time_Parse w path = inl e →
            Run dataIntervalUnit time_Parse w p = (Some e, [])) as Hfirst.
  { intros before path after e Hfiles Hall Hpath. unfold Run.
    by rewrite Hfiles, (groupFiles_refused _ _ _ _ _ _ _ Hall Hpath). }
  split_and!.
  - done.
  - intros path e Hin Hpath.
    destruct (first_refused _ _ _ _ _ Hin Hpath)
      as (before & path' & after & e' & Hfiles & Hall & Hpath').
    exists path', e'. split_and!; [|done|by eapply Hfirst].
    rewrite Hfiles. apply elem_of_app. right. by left.
  - unfold Run.
    destruct (groupFiles time_Parse w (Plot.Files p) ∅) as [e|data] eqn:Hrun;
      [done|].
    intros _. eapply Forall_impl; [by eapply groupFiles_accepted|].
    intros path [m Hm]. exists m. split; [done|].
    by eapply processFile_reconciled.
Qed.

Lemma Run_failure_writes_nothing_witness :
  Run Samples.second Samples.parse Samples.world
    (Samples.plot ["a.log"; "no-marker.log"; "malformed.log"])
  = (Some MissingMarker, []).
Proof.
  destruct (Run_failure_writes_nothing Samples.second Samples.parse
              Samples.world
              (Samples.plot ["a.log"; "no-marker.log"; "malformed.log"]))
    as (Hfirst & _ & _).
  apply (Hfirst ["a.log"] "no-marker.log" ["malformed.log"]).
  - reflexivity.
  - constructor; [|constructor]. eexists. vm_compute. reflexivity.
  - vm_compute. reflexivity.
Defined.

(** ** Charts *)

Section Charts.

Variable dataIntervalUnit : time.Duration.

Implicit Types (m : plotMeasurements.t) (name : string).

Lemma addAllSeries_series name (allMeasurements : list plotMeasurements.t) :
  ∀ series,
    Forall reconciled allMeasurements →
    addAllSeries dataIntervalUnit name allMeasurements series =
      inr (series ++ (allMeasurements ≫= runSeries dataIntervalUnit name)).
Proof.
  induction allMeasurements as [|m rest IH]; intros series Hall;
    cbn [addAllSeries].
  - by rewrite app_nil_r.
  - apply Forall_cons in Hall as [Hm Hrest].
    rewrite makeLineData_zip by (by apply reconciled_series_length).
    cbn [mbind result_bind]. rewrite IH by done.
    rewrite bind_cons. unfold runSeries at 2, runPoints.
    destruct (negb (strings_Contains name "rate")); by rewrite <-!app_assoc.
Qed.

(** On reconciled runs [renderPlot] returns a chart. *)
Lemma renderPlot_total (config : plotConfig.t) name
    (allMeasurements : list plotMeasurements.t) :
  Forall reconciled allMeasurements →
  ∃ line,
    renderPlot dataIntervalUnit config name allMeasurements = inr line ∧
    Line.MultiSeries line =
      SingleSeries.setSmooth true <$>
        (allMeasurements ≫= runSeries dataIntervalUnit name).
Proof.
  intros Hall. unfold renderPlot.
  rewrite addAllSeries_series by done.
  destruct (strings_Contains name "rate"); simpl; eauto.
Qed.

End Charts.

(** C7. In every chart [renderPlot] returns: when the metric name contains
    rate, the y-axis is named ops/s, the hint is higher is better and the
    chart has no toolbox, hence no error-bar toggle; otherwise the y-axis is
    named as a duration, the hint is lower is better, and the toolbox holds
    the toggle, whose click runs [toggleErrorBars]. *)
Theorem renderPlot_axis_and_toggle
    (dataIntervalUnit : time.Duration) (config : plotConfig.t) (name : string)
    (allMeasurements : list plotMeasurements.t) (line : Line.t) :
  renderPlot dataIntervalUnit config name allMeasurements = inr line →
  Title.Title (Line.Title line) = name ∧
  if strings_Contains name "rate" then
    YAxis.Name (Line.YAxis line) = "ops/s" ∧
    last (args (Title.Subtitle (Line.Title line))) =
      Some (ArgString "higher is better") ∧
    Line.Toolbox line = None
  else
    YAxis.Name (Line.YAxis line) = "duration (ms)" ∧
    last (args (Title.Subtitle (Line.Title line))) =
      Some (ArgString "lower is better") ∧
    ∃ toolbox feature,
      Line.Toolbox line = Some toolbox ∧
      Toolbox.Show toolbox = true ∧
      Toolbox.UserDefined toolbox !! "myErrorBars" = Some feature ∧
      ToolBoxFeatureUserDefined.Show feature = true ∧
      ToolBoxFeatureUserDefined.OnClick feature = FuncOpts toggleErrorBars.
Proof.
  unfold renderPlot.
  destruct (strings_Contains name "rate");
    intros (series & _ & [= <-])%bind_inr; simpl; split_and!; try done.
  exists errorBarsToolbox. eexists. by split_and!.
Qed.

Lemma renderPlot_axis_and_toggle_witness :
  ∃ line,
    renderPlot Samples.second (plotConfig.mk 2 4 1024 false) "get rate"
      [Samples.aligned] = inr line ∧
    YAxis.Name (Line.YAxis line) = "ops/s" ∧
    Line.Toolbox line = None.
Proof.
  destruct (renderPlot_total Samples.second (plotConfig.mk 2 4 1024 false)
              "get rate" [Samples.aligned]) as (line & Hline & _).
  { repeat constructor. apply (bool_decide_unpack _). vm_compute. exact I. }
  exists line. split; [exact Hline|].
  destruct (renderPlot_axis_and_toggle Samples.second
              (plotConfig.mk 2 4 1024 false) "get rate" [Samples.aligned] line
              Hline) as (_ & Haxis).
  change (strings_Contains "get rate" "rate") with true in Haxis.
  destruct Haxis as (Hy & _ & Htool). split; [exact Hy|exact Htool].
Defined.

(** ** The rows of the series *)

Section Rows.

Variable time_Parse : string → string → option time.Time.

Implicit Types (st : loopState) (entry : logEntry.t) (m : plotMeasurements.t).

Lemma rowsFromRecords_empty : rowsFromRecords plotMeasurements.empty.
Proof.
  intros name row. simpl. rewrite lookup_total_empty. by intros ?%elem_of_nil.
Qed.

Lemma recordMessage_rows m entry m' :
  recordMessage m entry = inr m' →
  rowsFromRecords m → rowsFromRecords m'.
Proof.
  intros [_ Hdata]%recordMessage_frame Hrows name row.
  rewrite Hdata. destruct (metricRow entry) as [[name' row']|] eqn:Hrow;
    [|by apply Hrows].
  destruct (decide (name' = name)) as [->|Hne].
  - rewrite lookup_total_insert_eq.
    intros [Hin| ->%list_elem_of_singleton]%elem_of_app; [by apply Hrows|eauto].
  - rewrite lookup_total_insert_ne by done. by apply Hrows.
Qed.

Lemma processEntry_rows st entry st' :
  processEntry time_Parse st entry = inr st' →
  rowsFromRecords (measurements st) → rowsFromRecords (measurements st').
Proof.
  intros (st1 & m & H1 & H2 & ->)%processEntry_inr Hrows. simpl.
  apply (recordMessage_rows _ _ _ H2).
  apply recordTimestamp_cases in H1 as (_ & _ & Hdata & _).
  unfold rowsFromRecords. by rewrite Hdata.
Qed.

Lemma decodeLoop_rows (stream : list (option logEntry.t)) : ∀ st st',
  decodeLoop time_Parse stream st = inr st' →
  rowsFromRecords (measurements st) → rowsFromRecords (measurements st').
Proof.
  induction stream as [|[entry|] rest IH]; intros st st'; cbn [decodeLoop].
  - by intros [= <-].
  - destruct (processEntry time_Parse st entry) as [e|st1] eqn:Hstep; [done|].
    intros Hloop Hrows. eapply IH; [done|]. by eapply processEntry_rows.
  - done.
Qed.

Lemma reconcile_rows m : rowsFromRecords m → rowsFromRecords (reconcile m).
Proof.
  intros Hrows name row. unfold reconcile; simpl.
  rewrite !lookup_total_alt, lookup_fmap.
  pose proof (Hrows name row) as Hname. rewrite lookup_total_alt in Hname.
  destruct (plotMeasurements.Data m !! name) as [series|]; simpl in *.
  - intros Hin. apply Hname. by apply (subseteq_take _ _ _ Hin).
  - done.
Qed.

(** The rows [processFile] leaves are rows of records. *)
Lemma processFile_rows (w : World.t) (path : string) m :
  processFile time_Parse w path = inr m → rowsFromRecords m.
Proof.
  unfold processFile. destruct (World.files w !! path) as [stream|]; [|done].
  intros (st & Hloop & H)%bind_inr. case_bool_decide; [done|].
  injection H as <-. apply reconcile_rows.
  by apply (decodeLoop_rows stream initialState st Hloop), rowsFromRecords_empty.
Qed.

End Rows.

Lemma latencyNames_not_rate (name : string) :
  name ∈ latencyNames → strings_Contains name "rate" = false.
Proof.
  unfold latencyNames. rewrite !elem_of_cons, elem_of_nil.
  intros [->|[->|[->|[->|[]]]]]; by vm_compute.
Qed.

(** A row of a latency metric is mean, minimum, maximum of its record. *)
Lemma latency_row (name : string) (row : list float64) (entry : logEntry.t) :
  name ∈ latencyNames →
  metricRow entry = Some (name, row) →
  row = [logEntry.Mean entry; logEntry.Min entry; logEntry.Max entry].
Proof.
  intros Hname%latencyNames_not_rate. unfold metricRow.
  repeat case_bool_decide; intros [= <- <-]; by vm_compute in Hname.
Qed.

Lemma runSeries_latency (unit : time.Duration) (name : string)
    (allMeasurements : list plotMeasurements.t) :
  strings_Contains name "rate" = false →
  SingleSeries.setSmooth true <$> (allMeasurements ≫= runSeries unit name) =
    allMeasurements ≫= (λ m,
      [ SingleSeries.mk (plotMeasurements.Engine m) types.ChartLine
          (runPoints unit name m) None None None true;
        SingleSeries.mk (plotMeasurements.Engine m) types.ChartCustom
          (runPoints unit name m) (Some (FuncOpts renderErrorBars))
          (Some (Encode.mk [0%Z] [2%Z; 3%Z])) (Some (ItemStyle.mk 1.5%float))
          true ]).
Proof.
  intros Hname. induction allMeasurements as [|m rest IH]; [done|].
  rewrite !bind_cons, fmap_app, IH. f_equal.
  unfold runSeries. by rewrite Hname.
Qed.

(** The series of a latency metric, record by record. *)
Lemma recordsFor_cons (name : string) (entry : logEntry.t)
    (stream : list (option logEntry.t)) :
  recordsFor name (Some entry :: stream) =
    if decide (fst <$> metricRow entry = Some name)
    then entry :: recordsFor name stream
    else recordsFor name stream.
Proof. unfold recordsFor. simpl. by rewrite filter_cons. Qed.

Lemma seriesOf_latency (name : string) (stream : list (option logEntry.t)) :
  name ∈ latencyNames →
  seriesOf name stream =
    (λ entry, [logEntry.Mean entry; logEntry.Min entry; logEntry.Max entry])
      <$> recordsFor name stream.
Proof.
  intros Hname. induction stream as [|[entry|] rest IH]; [done| |done].
  rewrite seriesOf_cons, recordsFor_cons. unfold rowFor.
  destruct (metricRow entry) as [[name' row]|] eqn:Hrow; simpl.
  - case_decide as Heq.
    + subst name'. rewrite decide_True by done. rewrite fmap_cons, IH.
      f_equal. by apply (latency_row name row entry).
    + rewrite decide_False by (by intros [= ?]). done.
  - done.
Qed.

Lemma zip_with_take_length {A B C} (f : A → B → C) (l : list A) :
  ∀ k : list B, zip_with f l (take (length l) k) = zip_with f l k.
Proof.
  induction l as [|x l IH]; intros [|y k]; simpl; [done..|]. by rewrite IH.
Qed.

(** The series of an accepted file, from its records. *)
Lemma processFile_data
    (time_Parse : string → string → option time.Time)
    (w : World.t) (path : string) (stream : list (option logEntry.t))
    (m : plotMeasurements.t) (name : string) :
  World.files w !! path = Some stream →
  processFile time_Parse w path = inr m →
  plotMeasurements.Data m !!! name =
    take (length (plotMeasurements.Timestamps m)) (seriesOf name stream).
Proof.
  intros Hfile Hm. unfold processFile in Hm. rewrite Hfile in Hm.
  apply bind_inr in Hm as (st & Hloop & Hm).
  case_bool_decide; [done|]. injection Hm as <-.
  pose proof (decodeLoop_series time_Parse stream _ _ name Hloop) as Hseries.
  simpl in Hseries. rewrite lookup_total_empty in Hseries. simpl in Hseries.
  unfold reconcile; simpl. rewrite length_take.
  pose proof (reconcileLength_minLength (measurements st)) as HL.
  pose proof (minLength_le_offsets (measurements st)) as Hle.
  rewrite Nat.min_l by lia.
  rewrite !lookup_total_alt, lookup_fmap.
  rewrite lookup_total_alt in Hseries.
  destruct (plotMeasurements.Data (measurements st) !! name); simpl in *.
  - by rewrite Hseries.
  - by rewrite <-Hseries, take_nil.
Qed.

(** The points of a latency metric: the offsets of the run paired, in
    order, with the records of the file tagged for the metric. *)
Lemma processFile_points
    (unit : time.Duration)
    (time_Parse : string → string → option time.Time)
    (w : World.t) (path : string) (stream : list (option logEntry.t))
    (m : plotMeasurements.t) (name : string) :
  name ∈ latencyNames →
  World.files w !! path = Some stream →
  processFile time_Parse w path = inr m →
  runPoints unit name m =
    zip_with (whiskerPoint unit) (plotMeasurements.Timestamps m)
      (recordsFor name stream).
Proof.
  intros Hname Hfile Hm. unfold runPoints.
  rewrite (processFile_data time_Parse w path stream m name Hfile Hm).
  rewrite zip_with_take_length, (seriesOf_latency name stream Hname).
  by rewrite zip_with_fmap_r.
Qed.

(** C6, amended. In the chart of a latency metric every run of a file
    contributes, in the order of the runs, a line series and then a custom
    series for the whisker renderer, both named after the engine and both
    holding the same points, one per sample of the run: the i-th point is
    the i-th offset of the run followed by the mean, the minimum and the
    maximum, in this order, of the i-th record of the file that is tagged
    for the metric. The line series has no encoding of its own, so that it
    plots the mean against the offset; the custom series encodes the offset
    as x and the minimum and maximum as y. The custom series is emitted
    with the renderer bound to it: the error bars are shown at first, the
    toggle hides them, and the toggle again shows them. *)
Theorem latency_chart_series
    (dataIntervalUnit : time.Duration)
    (time_Parse : string → string → option time.Time)
    (w : World.t) (config : plotConfig.t) (name : string)
    (allMeasurements : list plotMeasurements.t) :
  name ∈ latencyNames →
  Forall (λ m, ∃ path, processFile time_Parse w path = inr m) allMeasurements →
  ∃ line,
    renderPlot dataIntervalUnit config name allMeasurements = inr line ∧
    Line.MultiSeries line =
      allMeasurements ≫= (λ m,
        [ SingleSeries.mk (plotMeasurements.Engine m) types.ChartLine
            (runPoints dataIntervalUnit name m) None None None true;
          SingleSeries.mk (plotMeasurements.Engine m) types.ChartCustom
            (runPoints dataIntervalUnit name m)
            (Some (FuncOpts renderErrorBars))
            (Some (Encode.mk [0%Z] [2%Z; 3%Z]))
            (Some (ItemStyle.mk 1.5%float)) true ]) ∧
    (∀ m, m ∈ allMeasurements →
       length (runPoints dataIntervalUnit name m) =
         length (plotMeasurements.Data m !!! name) ∧
       ∃ path stream,
         World.files w !! path = Some stream ∧
         processFile time_Parse w path = inr m) ∧
    (∀ m path stream,
       World.files w !! path = Some stream →
       processFile time_Parse w path = inr m →
       runPoints dataIntervalUnit name m =
         zip_with (whiskerPoint dataIntervalUnit)
           (plotMeasurements.Timestamps m) (recordsFor name stream)) ∧
    (∀ s, s ∈ Line.MultiSeries line →
       SingleSeries.Type_ s = types.ChartCustom →
       seriesHidden s = false ∧
       seriesHidden (toggleSeries s) = true ∧
       toggleSeries (toggleSeries s) = s).
Proof.
  intros Hname Hfiles.
  assert (Forall reconciled allMeasurements) as Hrec.
  { eapply Forall_impl; [done|]. intros m [path Hm]. simpl in Hm.
    by eapply processFile_reconciled. }
  destruct (renderPlot_total dataIntervalUnit config name allMeasurements Hrec)
    as (line & Hline & Hseries).
  rewrite runSeries_latency in Hseries by (by apply latencyNames_not_rate).
  exists line. split_and!; [done|done| | |].
  - intros m Hm.
    pose proof (proj1 (Forall_forall _ _) Hrec m Hm) as Hlen%(reconciled_series_length m name).
    destruct (proj1 (Forall_forall _ _) Hfiles m Hm) as [path Hfile].
    unfold runPoints. split; [rewrite length_zip_with; lia|].
    destruct (World.files w !! path) as [stream|] eqn:Hs.
    + by exists path, stream.
    + unfold processFile in Hfile. by rewrite Hs in Hfile.
  - intros m path stream Hfile Hm. by eapply processFile_points.
  - intros s Hs Hcustom. rewrite Hseries in Hs.
    apply list_elem_of_bind in Hs as (m & Hs & _).
    apply elem_of_cons in Hs as [->|Hs]; [done|].
    apply list_elem_of_singleton in Hs as ->. done.
Qed.

Lemma latency_chart_series_witness :
  ∃ m line,
    processFile Samples.parse Samples.world "c.log" = inr m ∧
    renderPlot Samples.second (plotMeasurements.Config m) "set" [m] = inr line ∧
    length (Line.MultiSeries line) = 2 ∧
    runPoints Samples.second "set" m =
      zip_with (whiskerPoint Samples.second) (plotMeasurements.Timestamps m)
        (recordsFor "set" Samples.cLog).
Proof.
  destruct (processFile Samples.parse Samples.world "c.log") as [e|m] eqn:Hm.
  { vm_compute in Hm. discriminate Hm. }
  destruct (latency_chart_series Samples.second Samples.parse Samples.world
              (plotMeasurements.Config m) "set" [m])
    as (line & Hline & Hseries & _ & Hpoints & _).
  - unfold latencyNames. rewrite !elem_of_cons. tauto.
  - constructor; [|constructor]. exists "c.log". exact Hm.
  - exists m, line. split; [reflexivity|]. split; [exact Hline|]. split.
    + rewrite Hseries. reflexivity.
    + apply (Hpoints m "c.log" Samples.cLog); [|exact Hm].
      vm_compute. reflexivity.
Defined.

(** C6 as stated fails in its last part: in the chart of the set latency of
    one run the second series is the custom one, it carries the whisker
    renderer, and so it is not hidden when the page opens. *)
Lemma error_bars_shown_at_first :
  ∃ m line visible aux,
    processFile Samples.parse Samples.world "c.log" = inr m ∧
    renderPlot Samples.second (plotMeasurements.Config m) "set" [m] = inr line ∧
    Line.MultiSeries line = [visible; aux] ∧
    SingleSeries.Type_ visible = types.ChartLine ∧
    SingleSeries.Type_ aux = types.ChartCustom ∧
    SingleSeries.RenderItem aux = Some (FuncOpts renderErrorBars) ∧
    seriesHidden aux = false.
Proof.
  do 4 eexists.
  split; [vm_compute; reflexivity|].
  split; [vm_compute; reflexivity|].
  split; [reflexivity|].
  split_and!; vm_compute; reflexivity.
Qed.

(** ** The page *)

Section PageOfRuns.

Variable dataIntervalUnit : time.Duration.
Variable time_Parse : string → string → option time.Time.
Variable w : World.t.

Lemma renderMetrics_total (config : plotConfig.t) (names : list string)
    (allMeasurements : list plotMeasurements.t) :
  Forall reconciled allMeasurements →
  ∃ plots,
    renderMetrics dataIntervalUnit config names allMeasurements = inr plots ∧
    length plots = length names.
Proof.
  intros Hall. induction names as [|name rest (plots & IH & Hlen)];
    cbn [renderMetrics]; [by eauto|].
  destruct (renderPlot_total dataIntervalUnit config name allMeasurements Hall)
    as (plot & -> & _).
  rewrite IH. simpl. eexists. split; [done|]. simpl. by rewrite Hlen.
Qed.

Lemma renderGroups_total
    (groups : list (plotConfig.t * list plotMeasurements.t)) :
  Forall (λ group, Forall reconciled group.2) groups →
  ∃ plots,
    renderGroups dataIntervalUnit groups = inr plots ∧
    length plots = length metricNames * length groups.
Proof.
  induction 1 as [|[config allMeasurements] rest Hgroup _ (more & IH & Hlen)];
    cbn [renderGroups]; [by eauto|].
  destruct (renderMetrics_total config metricNames allMeasurements Hgroup)
    as (plots & -> & Hplots).
  rewrite IH. simpl. eexists. split; [done|].
  rewrite length_app, Hplots, Hlen. simpl. lia.
Qed.

Lemma groupFiles_reconciled (paths : list string)
    (data : gmap plotConfig.t (list plotMeasurements.t)) :
  groupFiles time_Parse w paths ∅ = inr data →
  map_Forall (λ _ allMeasurements, Forall reconciled allMeasurements) data.
Proof.
  intros Hrun c allMeasurements Hc.
  pose proof (groupFiles_groups _ _ _ _ _ Hrun c) as Hgroup.
  rewrite lookup_total_alt, Hc, lookup_total_empty in Hgroup. simpl in Hgroup.
  rewrite Hgroup. apply Forall_forall. intros m [_ Hm]%list_elem_of_filter.
  apply fileRuns_accepted in Hm as (path & _ & Hm).
  by eapply processFile_reconciled.
Qed.

(** When every file is accepted, [Run] assembles six charts per group and
    goes on to the output file: it never panics on the way. *)
Lemma Run_writes_page (p : Plot.t) :
  Forall (λ path, ∃ m, processFile time_Parse w path = inr m) (Plot.Files p) →
  ∃ data page,
    groupFiles time_Parse w (Plot.Files p) ∅ = inr data ∧
    length (Page.Charts page) = length metricNames * size data ∧
    Run dataIntervalUnit time_Parse w p =
      if World.createOk w (Plot.Output p) then
        (if World.renderOk w then None else Some RenderError,
         [Created (Plot.Output p); Rendered (Plot.Output p) page])
      else (Some (CreateError (Plot.Output p)), []).
Proof.
  intros Hall.
  destruct (groupFiles_accepts time_Parse w (Plot.Files p) ∅ Hall)
    as [data Hrun].
  destruct (renderGroups_total (map_to_list data)) as (plots & Hplots & Hlen).
  { apply Forall_forall. intros [c allMeasurements] Hin%elem_of_map_to_list.
    by apply (groupFiles_reconciled _ _ Hrun c). }
  exists data. eexists (Page.mk _ _ _ plots). split; [done|]. split.
  - simpl. by rewrite Hlen, length_map_to_list.
  - unfold Run, renderData. rewrite Hrun, Hplots. done.
Qed.

End PageOfRuns.

(** * Further properties *)

(** ** The loop over a stream *)

Section LoopLaws.

Variable time_Parse : string → string → option time.Time.

Implicit Types (st : loopState) (entry : logEntry.t)
  (stream : list (option logEntry.t)).

(** X1. Reading a stream in two parts: the loop over [before ++ after] is the
    loop over [before] followed by the loop over [after] from the state the
    first one ends in; an error of the first part is the error of the
    whole. *)
Theorem decodeLoop_app (before after : list (option logEntry.t)) st :
  decodeLoop time_Parse (before ++ after) st =
    (st' ← decodeLoop time_Parse before st; decodeLoop time_Parse after st').
Proof.
  revert st. induction before as [|[entry|] rest IH]; intros st;
    cbn [decodeLoop app]; [done| |done].
  destruct (processEntry time_Parse st entry) as [e|st1]; [done|]. apply IH.
Qed.

Lemma rowFor_metricNames name entry :
  is_Some (rowFor name entry) → name ∈ metricNames.
Proof.
  unfold rowFor, metricRow, metricNames.
  repeat case_bool_decide; simpl; try (by intros [? [=]]);
    case_decide; try (by intros [? [=]]); subst; intros _;
    rewrite !elem_of_cons; tauto.
Qed.

Lemma seriesOf_metricNames name stream :
  seriesOf name stream ≠ [] → name ∈ metricNames.
Proof.
  induction stream as [|[entry|] rest IH]; [done|..].
  - rewrite seriesOf_cons. destruct (rowFor name entry) as [row|] eqn:Hrow.
    + intros _. apply (rowFor_metricNames name entry). by rewrite Hrow.
    + done.
  - done.
Qed.

End LoopLaws.

(** X2. The series of an accepted file: each one holds, in the order of the
    records, the tuples of the records tagged for it, cut to the number of
    offsets; a series is recorded exactly when some record is tagged for it,
    and then it is one of the six that [renderData] charts. *)
Theorem processFile_series
    (time_Parse : string → string → option time.Time)
    (w : World.t) (path : string) (stream : list (option logEntry.t))
    (m : plotMeasurements.t) :
  World.files w !! path = Some stream →
  processFile time_Parse w path = inr m →
  ∀ name,
    plotMeasurements.Data m !!! name =
      take (length (plotMeasurements.Timestamps m)) (seriesOf name stream) ∧
    (is_Some (plotMeasurements.Data m !! name) ↔ seriesOf name stream ≠ []) ∧
    (is_Some (plotMeasurements.Data m !! name) → name ∈ metricNames).
Proof.
  intros Hfile Hm name. unfold processFile in Hm. rewrite Hfile in Hm.
  apply bind_inr in Hm as (st & Hloop & Hm).
  case_bool_decide; [done|]. injection Hm as <-.
  pose proof (decodeLoop_series time_Parse stream _ _ name Hloop) as Hseries.
  pose proof (decodeLoop_recorded time_Parse stream _ _ name Hloop) as Hrec.
  simpl in Hseries, Hrec. rewrite lookup_total_empty in Hseries.
  rewrite lookup_empty in Hrec. simpl in Hseries.
  assert (is_Some ((take (reconcileLength (measurements st)) <$>
                      plotMeasurements.Data (measurements st)) !! name) ↔
          seriesOf name stream ≠ []) as Hdom.
  { rewrite lookup_fmap, fmap_is_Some, Hrec. split; [|by right].
    by intros [[? [=]]|?]. }
  split_and!.
  - unfold reconcile; simpl. rewrite length_take.
    pose proof (reconcileLength_minLength (measurements st)) as HL.
    pose proof (minLength_le_offsets (measurements st)) as Hle.
    rewrite Nat.min_l by lia.
    rewrite !lookup_total_alt, lookup_fmap.
    rewrite lookup_total_alt in Hseries.
    destruct (plotMeasurements.Data (measurements st) !! name); simpl in *.
    + by rewrite Hseries.
    + by rewrite <-Hseries, take_nil.
  - done.
  - intros Hsome. apply (seriesOf_metricNames name stream). by apply Hdom.
Qed.

Lemma processFile_series_witness :
  ∃ m,
    processFile Samples.parse Samples.world "short.log" = inr m ∧
    plotMeasurements.Data m !!! "set rate" =
      take (length (plotMeasurements.Timestamps m))
        [[10%float]; [20%float]].
Proof.
  destruct (processFile Samples.parse Samples.world "short.log")
    as [e|m] eqn:Hm.
  { vm_compute in Hm. discriminate Hm. }
  exists m. split; [reflexivity|].
  assert (World.files Samples.world !! "short.log" = Some Samples.shortLog)
    as Hfile by (vm_compute; reflexivity).
  destruct (processFile_series Samples.parse Samples.world "short.log"
              Samples.shortLog m Hfile Hm "set rate") as (Hseries & _).
  exact Hseries.
Defined.

(** [processFile] taken apart. *)
Lemma processFile_inr
    (time_Parse : string → string → option time.Time)
    (w : World.t) (path : string) (m : plotMeasurements.t) :
  processFile time_Parse w path = inr m ↔
  ∃ stream st,
    World.files w !! path = Some stream ∧
    decodeLoop time_Parse stream initialState = inr st ∧
    plotMeasurements.Engine (measurements st) ≠ "" ∧
    m = reconcile (measurements st).
Proof.
  unfold processFile. split.
  - destruct (World.files w !! path) as [stream|]; [|done].
    intros (st & Hloop & H)%bind_inr. case_bool_decide; [done|].
    injection H as <-. by exists stream, st.
  - intros (stream & st & -> & -> & Hengine & ->). simpl.
    by rewrite bool_decide_eq_false_2.
Qed.

(** X3. The offsets of an accepted file are a prefix of the offsets of its
    timestamps: zero for the first timestamp, then for each later one the
    time since the first, left out when it equals the offset before it. So
    there are no more offsets than timestamped records, and a file without
    metric record keeps all of them. *)
Theorem processFile_offsets
    (time_Parse : string → string → option time.Time)
    (w : World.t) (path : string) (stream : list (option logEntry.t))
    (m : plotMeasurements.t) :
  World.files w !! path = Some stream →
  processFile time_Parse w path = inr m →
  plotMeasurements.Timestamps m
    `prefix_of` elapsedOffsets (streamTimes time_Parse stream) ∧
  length (plotMeasurements.Timestamps m)
    ≤ length (streamTimes time_Parse stream) ∧
  (plotMeasurements.Data m = ∅ →
   plotMeasurements.Timestamps m =
     elapsedOffsets (streamTimes time_Parse stream)).
Proof.
  intros Hfile (stream' & st & Hfile' & Hloop & _ & ->)%processFile_inr.
  rewrite Hfile in Hfile'. injection Hfile' as <-.
  pose proof (decodeLoop_offsets_all time_Parse stream _ _ Hloop eq_refl)
    as Hts. simpl in Hts.
  assert (plotMeasurements.Timestamps (reconcile (measurements st))
            `prefix_of` elapsedOffsets (streamTimes time_Parse stream))
    as Hprefix by (simpl; rewrite Hts; apply prefix_take).
  split_and!.
  - done.
  - etrans; [by apply prefix_length|apply elapsedOffsets_length].
  - simpl. intros Hempty%fmap_empty_inv. rewrite <-Hts.
    unfold reconcileLength. rewrite Hempty, map_fold_empty.
    by rewrite firstn_all.
Qed.

Lemma processFile_offsets_witness :
  ∃ m,
    processFile Samples.parse Samples.world "backwards.log" = inr m ∧
    length (plotMeasurements.Timestamps m) ≤ 3.
Proof.
  destruct (processFile Samples.parse Samples.world "backwards.log")
    as [e|m] eqn:Hm.
  { vm_compute in Hm. discriminate Hm. }
  exists m. split; [reflexivity|].
  assert (World.files Samples.world !! "backwards.log"
            = Some Samples.backwardsLog) as Hfile by (vm_compute; reflexivity).
  destruct (processFile_offsets Samples.parse Samples.world "backwards.log"
              Samples.backwardsLog m Hfile Hm) as (_ & Hlen & _).
  exact Hlen.
Defined.

(** X4. A file without timestamped record, when accepted, gives no offset
    and cuts every series to nothing, whatever samples it holds. *)
Theorem processFile_without_timestamps
    (time_Parse : string → string → option time.Time)
    (w : World.t) (path : string) (stream : list (option logEntry.t))
    (m : plotMeasurements.t) :
  World.files w !! path = Some stream →
  processFile time_Parse w path = inr m →
  streamTimes time_Parse stream = [] →
  plotMeasurements.Timestamps m = [] ∧
  ∀ name series, plotMeasurements.Data m !! name = Some series → series = [].
Proof.
  intros Hfile (stream' & st & Hfile' & Hloop & _ & ->)%processFile_inr Hnone.
  rewrite Hfile in Hfile'. injection Hfile' as <-.
  pose proof (decodeLoop_offsets_all time_Parse stream _ _ Hloop eq_refl)
    as Hts. rewrite Hnone in Hts. simpl in Hts.
  assert (reconcileLength (measurements st) = 0) as HL.
  { pose proof (minLength_le_offsets (measurements st)) as Hle.
    rewrite Hts in Hle. rewrite reconcileLength_minLength. simpl in Hle. lia. }
  unfold reconcile. rewrite HL. simpl. split; [done|].
  intros name series. rewrite lookup_fmap.
  destruct (plotMeasurements.Data (measurements st) !! name); simpl; [|done].
  by intros [= <-].
Qed.

Lemma processFile_without_timestamps_witness :
  ∃ m,
    processFile Samples.parse Untimed.world "untimed.log" = inr m ∧
    plotMeasurements.Timestamps m = [] ∧
    plotMeasurements.Data m !! "get rate" = Some [].
Proof.
  destruct (processFile Samples.parse Untimed.world "untimed.log")
    as [e|m] eqn:Hm.
  { vm_compute in Hm. discriminate Hm. }
  exists m. split; [reflexivity|].
  destruct (processFile_without_timestamps Samples.parse Untimed.world
              "untimed.log" Untimed.log m) as [Hts Hdata].
  - vm_compute. reflexivity.
  - exact Hm.
  - vm_compute. reflexivity.
  - split; [exact Hts|].
    destruct (plotMeasurements.Data m !! "get rate") as [series|] eqn:Hs.
    + by rewrite (Hdata _ _ Hs).
    + exfalso. revert Hm Hs. clear. vm_compute. intros [= <-]. discriminate.
Defined.

(** ** Reconciling again *)

(** X5. Reconciling reconciled measurements changes nothing: the common
    length is then the number of offsets and every cut keeps all entries.
    In particular reconciling twice is reconciling once. *)
Theorem reconcile_reconciled_id (m : plotMeasurements.t) :
  reconciled m → reconcile m = m.
Proof.
  intros Hrec.
  assert (reconcileLength m = length (plotMeasurements.Timestamps m)) as HL.
  { rewrite reconcileLength_minLength.
    destruct (minLength_attained m) as [H|(name & series & Hs & H)]; [done|].
    by rewrite H, (Hrec _ _ Hs). }
  unfold reconcile. rewrite HL, firstn_all. destruct m as [engine c ts data].
  unfold reconciled in Hrec. simpl in *. f_equal. apply map_eq. intros name.
  rewrite lookup_fmap.
  destruct (data !! name) as [series|] eqn:Hs; simpl; [|done].
  f_equal. apply take_ge. by rewrite (Hrec _ _ Hs).
Qed.

Lemma reconcile_reconciled_id_witness :
  reconcile (reconcile Samples.aligned) = reconcile Samples.aligned.
Proof.
  apply (reconcile_reconciled_id (reconcile Samples.aligned)).
  apply reconcile_reconciled.
Defined.

(** ** Chart points, in and out of range *)

(** X6. [makeLineData] returns exactly when the series is no longer than the
    offsets: then it pairs the rows with the first offsets, one point per
    row, and ignores the offsets beyond; a longer series makes it panic on
    the first row without offset. *)
Theorem makeLineData_result (dataIntervalUnit : time.Duration)
    (timestamps : list time.Duration) (data : list (list float64)) :
  makeLineData dataIntervalUnit timestamps data =
    if bool_decide (length data ≤ length timestamps) then
      inr (zip_with (linePoint dataIntervalUnit)
             (take (length data) timestamps) data)
    else inl IndexOutOfRange.
Proof.
  case_bool_decide as Hlen.
  - rewrite makeLineData_zip by done. f_equal. clear Hlen.
    revert timestamps. induction data as [|values rest IH];
      intros [|t timestamps]; simpl; [done..|]. f_equal. apply IH.
  - unfold makeLineData. apply makeLineDataFrom_short; lia.
Qed.

(** X7. The arity of the points of an accepted file: a point of a metric
    whose name contains rate has two coordinates, offset and rate; a point of
    any other metric has four, offset, mean, minimum and maximum, so that
    the dimensions 0, 2 and 3 the error-bar series encodes exist. *)
Theorem runPoints_arity
    (dataIntervalUnit : time.Duration)
    (time_Parse : string → string → option time.Time)
    (w : World.t) (path : string) (m : plotMeasurements.t)
    (name : string) (p : LineData.t) :
  processFile time_Parse w path = inr m →
  p ∈ runPoints dataIntervalUnit name m →
  length (LineData.Value p) = if strings_Contains name "rate" then 2 else 4.
Proof.
  intros Hrows%processFile_rows (offset & row & -> & _ & Hrow)%elem_of_zip_with.
  destruct (Hrows name row Hrow) as [entry Hentry].
  unfold linePoint. simpl. rewrite length_fmap.
  unfold metricRow in Hentry.
  repeat case_bool_decide; simplify_eq; by vm_compute.
Qed.

Lemma runPoints_arity_witness :
  ∃ m,
    processFile Samples.parse Samples.world "c.log" = inr m ∧
    Forall (λ p, length (LineData.Value p) = 4)
      (runPoints Samples.second "set" m).
Proof.
  destruct (processFile Samples.parse Samples.world "c.log") as [e|m] eqn:Hm.
  { vm_compute in Hm. discriminate Hm. }
  exists m. split; [reflexivity|].
  apply Forall_forall. intros p Hp.
  exact (runPoints_arity Samples.second Samples.parse Samples.world "c.log" m
           "set" p Hm Hp).
Defined.

(** ** The marker, without assumption on engine names *)

Section LastMarker.

Variable time_Parse : string → string → option time.Time.

Implicit Types (st : loopState) (entry : logEntry.t)
  (stream : list (option logEntry.t)).

(** What a turn of the loop that succeeds did to engine and configuration. *)
Lemma processEntry_marker_cases st entry st' :
  processEntry time_Parse st entry = inr st' →
  if isMarker entry then
    plotMeasurements.Engine (measurements st) = "" ∧
    plotMeasurements.Engine (measurements st') = logEntry.Engine entry ∧
    plotMeasurements.Config (measurements st') = markerConfig entry
  else
    plotMeasurements.Engine (measurements st') =
      plotMeasurements.Engine (measurements st) ∧
    plotMeasurements.Config (measurements st') =
      plotMeasurements.Config (measurements st).
Proof.
  intros (st1 & m & H1 & H2 & ->)%processEntry_inr. simpl.
  apply recordTimestamp_cases in H1 as (He & Hc & _).
  destruct (isMarker entry) eqn:Hmk.
  - rewrite recordMessage_marker in H2 by done.
    case_bool_decide as Hengine; [done|]. injection H2 as <-. simpl.
    split; [|done]. rewrite <-He.
    by destruct (decide (plotMeasurements.Engine (measurements st1) = ""));
      [|destruct Hengine].
  - destruct (recordMessage_keeps_marker _ _ _ Hmk H2) as [-> ->]. done.
Qed.

(** After a named marker the loop goes on only without further marker. *)
Lemma decodeLoop_named stream : ∀ st st',
  decodeLoop time_Parse stream st = inr st' →
  plotMeasurements.Engine (measurements st) ≠ "" →
  markers stream = [] ∧
  plotMeasurements.Engine (measurements st') =
    plotMeasurements.Engine (measurements st) ∧
  plotMeasurements.Config (measurements st') =
    plotMeasurements.Config (measurements st).
Proof.
  induction stream as [|[entry|] rest IH]; intros st st';
    cbn [decodeLoop]; [|..|done].
  - by intros [= <-].
  - destruct (processEntry time_Parse st entry) as [e|st1] eqn:Hstep; [done|].
    intros Hloop Hengine. apply processEntry_marker_cases in Hstep.
    rewrite markers_cons. destruct (isMarker entry).
    + by destruct Hstep as [? _].
    + destruct Hstep as [He Hc].
      destruct (IH st1 st' Hloop) as (? & -> & ->); by rewrite ?He, ?Hc.
Qed.

Lemma decodeLoop_last_marker stream : ∀ st st',
  decodeLoop time_Parse stream st = inr st' →
  plotMeasurements.Engine (measurements st) = "" →
  (plotMeasurements.Engine (measurements st') = "" ∧
   Forall (λ entry, logEntry.Engine entry = "") (markers stream)) ∨
  ∃ unnamed entry,
    markers stream = unnamed ++ [entry] ∧
    Forall (λ entry, logEntry.Engine entry = "") unnamed ∧
    logEntry.Engine entry ≠ "" ∧
    plotMeasurements.Engine (measurements st') = logEntry.Engine entry ∧
    plotMeasurements.Config (measurements st') = markerConfig entry.
Proof.
  induction stream as [|[entry|] rest IH]; intros st st';
    cbn [decodeLoop]; [|..|done].
  - intros [= <-] Hengine. left. by split.
  - destruct (processEntry time_Parse st entry) as [e|st1] eqn:Hstep; [done|].
    intros Hloop Hengine. apply processEntry_marker_cases in Hstep.
    rewrite markers_cons. destruct (isMarker entry).
    + destruct Hstep as (_ & He & Hc).
      destruct (decide (logEntry.Engine entry = "")) as [Hname|Hname].
      * destruct (IH st1 st' Hloop) as [[? ?]|(unnamed & last & -> & ? & ?)];
          [by rewrite He|left; split; [done|by constructor]|].
        right. exists (entry :: unnamed), last. split; [done|].
        split; [by constructor|done].
      * destruct (decodeLoop_named rest st1 st' Hloop) as (-> & He' & Hc');
          [by rewrite He|].
        right. exists [], entry. rewrite He', Hc', He, Hc. by split_and!.
    + destruct Hstep as [He Hc]. apply (IH st1 st' Hloop). by rewrite He.
Qed.

End LastMarker.

(** X8. The engine and the configuration of an accepted file are those of
    its last marker record: that record names an engine and every marker
    record before it names none. *)
Theorem processFile_last_marker
    (time_Parse : string → string → option time.Time)
    (w : World.t) (path : string) (stream : list (option logEntry.t))
    (m : plotMeasurements.t) :
  World.files w !! path = Some stream →
  processFile time_Parse w path = inr m →
  ∃ unnamed entry,
    markers stream = unnamed ++ [entry] ∧
    Forall (λ entry, logEntry.Engine entry = "") unnamed ∧
    logEntry.Engine entry ≠ "" ∧
    plotMeasurements.Engine m = logEntry.Engine entry ∧
    plotMeasurements.Config m = markerConfig entry.
Proof.
  intros Hfile (stream' & st & Hfile' & Hloop & Hengine & ->)%processFile_inr.
  rewrite Hfile in Hfile'. injection Hfile' as <-.
  destruct (decodeLoop_last_marker time_Parse stream _ _ Hloop eq_refl)
    as [[? _]|H]; [done|exact H].
Qed.

Lemma processFile_last_marker_witness :
  ∃ m entry,
    processFile Samples.parse Samples.world "b.log" = inr m ∧
    last (markers Samples.bLog) = Some entry ∧
    plotMeasurements.Engine m = logEntry.Engine entry.
Proof.
  destruct (processFile Samples.parse Samples.world "b.log") as [e|m] eqn:Hm.
  { vm_compute in Hm. discriminate Hm. }
  destruct (processFile_last_marker Samples.parse Samples.world "b.log"
              Samples.bLog m) as (unnamed & entry & Hmk & _ & _ & He & _).
  - vm_compute. reflexivity.
  - exact Hm.
  - exists m, entry. split; [reflexivity|]. split; [|exact He].
    rewrite Hmk. apply last_snoc.
Defined.

(** ** Where an error comes from *)

Section ErrorCauses.

Variable time_Parse : string → string → option time.Time.

Implicit Types (st : loopState) (entry : logEntry.t)
  (stream : list (option logEntry.t)).

Lemma recordTimestamp_inr_wellFormed st entry st1 :
  recordTimestamp time_Parse st entry = inr st1 →
  wellFormed time_Parse (Some entry) = true.
Proof.
  unfold recordTimestamp, wellFormed.
  destruct (decide (logEntry.Timestamp entry = "")) as [Hts|Hts].
  - by rewrite (bool_decide_eq_true_2 _ Hts).
  - rewrite bool_decide_eq_true_2 by done.
    destruct (time_Parse _ _) as [t|]; [|done]. intros _.
    rewrite (bool_decide_eq_true_2 (is_Some _)) by eauto.
    apply orb_true_r.
Qed.

Lemma decodeLoop_inr_wellFormed stream : ∀ st st',
  decodeLoop time_Parse stream st = inr st' →
  Forall (λ r, wellFormed time_Parse r = true) stream.
Proof.
  induction stream as [|[entry|] rest IH]; intros st st';
    cbn [decodeLoop]; [done|..|done].
  destruct (processEntry time_Parse st entry) as [e|st1] eqn:Hstep; [done|].
  intros Hloop. constructor; [|by eapply IH].
  apply processEntry_inr in Hstep as (st2 & m & H1 & _).
  by eapply recordTimestamp_inr_wellFormed.
Qed.

(** The error of one turn of the loop and the record that caused it. *)
Lemma processEntry_inl st entry (e : error) :
  processEntry time_Parse st entry = inl e →
  hasOffset st →
  (e = TimestampError (logEntry.Timestamp entry) ∧
   logEntry.Timestamp entry ≠ "" ∧
   time_Parse timestampLayout (logEntry.Timestamp entry) = None) ∨
  (e = DuplicateMarker ∧ isMarker entry = true ∧
   plotMeasurements.Engine (measurements st) ≠ "").
Proof.
  intros [H|(st1 & H1 & H)]%bind_inl Hst.
  - left. pose proof (recordTimestamp_no_panic time_Parse st entry Hst) as Hnp.
    unfold recordTimestamp in H, Hnp. case_bool_decide; [|done].
    destruct (time_Parse _ _); [|by injection H as <-].
    destruct (time.IsZero (start st)); [done|].
    destruct (last _); [by case_bool_decide|by destruct Hnp].
  - right. apply bind_inl in H as [H|(m & _ & [=])].
    apply recordTimestamp_cases in H1 as (He & _).
    destruct (isMarker entry) eqn:Hmk.
    + rewrite recordMessage_marker in H by done.
      case_bool_decide; [|done]. injection H as <-. by rewrite <-He.
    + by rewrite recordMessage_metric in H.
Qed.

Lemma decodeLoop_inl stream : ∀ st (e : error),
  decodeLoop time_Parse stream st = inl e →
  hasOffset st →
  match e with
  | DecodeError => None ∈ stream
  | TimestampError value =>
      ∃ entry,
        Some entry ∈ stream ∧ logEntry.Timestamp entry = value ∧
        value ≠ "" ∧ time_Parse timestampLayout value = None
  | DuplicateMarker =>
      (plotMeasurements.Engine (measurements st) ≠ "" ∧ markers stream ≠ []) ∨
      2 ≤ length (markers stream)
  | _ => False
  end.
Proof.
  induction stream as [|[entry|] rest IH]; intros st e;
    cbn [decodeLoop]; [done|..].
  - destruct (processEntry time_Parse st entry) as [e'|st1] eqn:Hstep.
    + intros [= ->] Hst.
      destruct (processEntry_inl _ _ _ Hstep Hst)
        as [(-> & Hne & Hparse)|(-> & Hmk & Hengine)].
      * exists entry. split_and!; [by left|done..].
      * left. split; [done|]. by rewrite markers_cons, Hmk.
    + intros Hloop Hst.
      pose proof (processEntry_hasOffset _ _ _ _ Hstep Hst) as Hst1.
      specialize (IH st1 e Hloop Hst1).
      apply processEntry_marker_cases in Hstep.
      destruct e; try done.
      * by right.
      * destruct IH as (entry' & Hin & ?). exists entry'. split; [by right|done].
      * rewrite markers_cons. destruct (isMarker entry).
        -- right. destruct IH as [[_ Hne]|Hlen]; simpl; [|lia].
           destruct (markers rest); [done|simpl; lia].
        -- destruct Hstep as [He _]. rewrite <-He. done.
  - intros [= <-] _. by left.
Qed.

End ErrorCauses.

(** X9. Every error of [processFile] has its cause in the input: an open
    error names the path, which is not a readable file; a decode error comes
    with a record that does not decode; a timestamp error carries a
    non-empty timestamp of a record that does not parse; a duplicate marker
    comes with at least two marker records; a missing marker comes with a
    stream that decodes and parses to its end and whose marker records, if
    any, name no engine. [processFile] never panics and returns no error of
    the output file. *)
Theorem processFile_error_cause
    (time_Parse : string → string → option time.Time)
    (w : World.t) (path : string) (e : error) :
  processFile time_Parse w path = inl e →
  match e with
  | OpenError p => p = path ∧ World.files w !! path = None
  | DecodeError =>
      ∃ stream, World.files w !! path = Some stream ∧ None ∈ stream
  | TimestampError value =>
      ∃ stream entry,
        World.files w !! path = Some stream ∧
        Some entry ∈ stream ∧ logEntry.Timestamp entry = value ∧
        value ≠ "" ∧ time_Parse timestampLayout value = None
  | DuplicateMarker =>
      ∃ stream,
        World.files w !! path = Some stream ∧ 2 ≤ length (markers stream)
  | MissingMarker =>
      ∃ stream,
        World.files w !! path = Some stream ∧
        Forall (λ r, wellFormed time_Parse r = true) stream ∧
        Forall (λ entry, logEntry.Engine entry = "") (markers stream)
  | CreateError _ | RenderError | IndexOutOfRange => False
  end.
Proof.
  unfold processFile.
  destruct (World.files w !! path) as [stream|] eqn:Hfile;
    [|by intros [= <-]].
  intros [Hloop|(st & Hloop & H)]%bind_inl.
  - pose proof (decodeLoop_inl time_Parse stream _ _ Hloop
                  initialState_hasOffset) as Hcause.
    destruct e; try done.
    + by exists stream.
    + destruct Hcause as (entry & ?). by exists stream, entry.
    + exists stream. split; [done|]. by destruct Hcause as [[[] _]|?].
  - case_bool_decide as Hengine; [|done]. injection H as <-.
    exists stream. split; [done|]. split; [by eapply decodeLoop_inr_wellFormed|].
    destruct (decodeLoop_last_marker time_Parse stream _ _ Hloop eq_refl)
      as [[_ ?]|(unnamed & entry & _ & _ & Hne & He & _)]; [done|].
    by rewrite Hengine in He.
Qed.

Lemma processFile_error_cause_witness :
  ∃ stream,
    World.files Samples.world !! "two-markers.log" = Some stream ∧
    2 ≤ length (markers stream).
Proof.
  apply (processFile_error_cause Samples.parse Samples.world "two-markers.log"
           DuplicateMarker).
  vm_compute. reflexivity.
Defined.

(** ** The outcome of a run of the command *)

Section RunOutcome.

Variable dataIntervalUnit : time.Duration.
Variable time_Parse : string → string → option time.Time.
Variable w : World.t.

Lemma groupFiles_inl (paths : list string) : ∀ data (e : error),
  groupFiles time_Parse w paths data = inl e →
  ∃ path, path ∈ paths ∧ processFile time_Parse w path = inl e.
Proof.
  induction paths as [|path rest IH]; intros data e; cbn [groupFiles]; [done|].
  intros [H|(m & _ & H)]%bind_inl.
  - exists path. split; [by left|done].
  - destruct (IH _ _ H) as (path' & ? & ?). exists path'. split; [by right|done].
Qed.

Lemma renderMetrics_charts (config : plotConfig.t) (names : list string)
    (allMeasurements : list plotMeasurements.t) : ∀ plots,
  renderMetrics dataIntervalUnit config names allMeasurements = inr plots →
  Forall2 (λ name plot,
             renderPlot dataIntervalUnit config name allMeasurements = inr plot)
    names plots.
Proof.
  induction names as [|name rest IH]; intros plots; cbn [renderMetrics].
  - intros [= <-]. constructor.
  - intros (plot & Hplot & (more & Hmore & [= <-])%bind_inr)%bind_inr.
    constructor; [done|by apply IH].
Qed.

Lemma renderGroups_charts
    (groups : list (plotConfig.t * list plotMeasurements.t)) : ∀ plots,
  renderGroups dataIntervalUnit groups = inr plots →
  ∃ chunks,
    plots = concat chunks ∧
    Forall2 (λ group chunk,
               Forall2 (λ name plot,
                          renderPlot dataIntervalUnit group.1 name group.2
                            = inr plot)
                 metricNames chunk)
      groups chunks.
Proof.
  induction groups as [|[config allMeasurements] rest IH]; intros plots;
    cbn [renderGroups].
  - intros [= <-]. exists []. split; [done|constructor].
  - intros (chunk & Hchunk & (more & Hmore & [= <-])%bind_inr)%bind_inr.
    destruct (IH _ Hmore) as (chunks & -> & Hall).
    exists (chunk :: chunks). split; [done|].
    constructor; [by apply renderMetrics_charts|done].
Qed.

(** The charts of the groups, group after group in the order they are
    visited. *)
Lemma renderGroups_groupCharts
    (groups : list (plotConfig.t * list plotMeasurements.t))
    (plots : list Line.t) :
  renderGroups dataIntervalUnit groups = inr plots →
  ∃ chunks,
    plots = concat chunks ∧
    Forall2 (groupCharts dataIntervalUnit) groups chunks ∧
    length plots = 6 * length groups.
Proof.
  intros (chunks & -> & Hall)%renderGroups_charts.
  exists chunks. split_and!; [done| |].
  - eapply Forall2_impl; [done|]. intros [c ms] chunk Hchunk.
    eapply Forall2_impl; [done|]. simpl. intros name plot Hplot.
    split; [done|]. unfold renderPlot in Hplot.
    destruct (strings_Contains name "rate");
      by apply bind_inr in Hplot as (series & _ & [= <-]).
  - induction Hall as [|group chunk groups chunks Hc _ IH]; [done|].
    simpl. rewrite length_app, IH.
    apply Forall2_length in Hc. rewrite <-Hc. simpl. lia.
Qed.

End RunOutcome.

(** X10. The outcome of [Run]. It returns no error exactly when every file is
    accepted, the output file can be created and the page renders into it.
    It never panics. The output file is touched exactly when every file is
    accepted and the file can be created: it is then created once and
    rendered into once, with a page titled Results that takes its assets
    from the configured location. *)
Theorem Run_outcome
    (dataIntervalUnit : time.Duration)
    (time_Parse : string → string → option time.Time)
    (w : World.t) (p : Plot.t) :
  let accepted :=
    Forall (λ path, ∃ m, processFile time_Parse w path = inr m) (Plot.Files p) in
  let outcome := Run dataIntervalUnit time_Parse w p in
  (outcome.1 = None ↔
     accepted ∧ World.createOk w (Plot.Output p) = true ∧
     World.renderOk w = true) ∧
  outcome.1 ≠ Some IndexOutOfRange ∧
  (outcome.2 ≠ [] ↔ accepted ∧ World.createOk w (Plot.Output p) = true) ∧
  (outcome.2 = [] ∨
   ∃ page,
     outcome.2 = [Created (Plot.Output p); Rendered (Plot.Output p) page] ∧
     Page.PageTitle page = "Results" ∧
     Page.AssetsHost page = Plot.Assets p).
Proof.
  intros accepted outcome. subst accepted outcome.
  destruct (groupFiles time_Parse w (Plot.Files p) ∅) as [e|data] eqn:Hrun.
  - assert (¬ Forall (λ path, ∃ m, processFile time_Parse w path = inr m)
                (Plot.Files p)) as Hnot.
    { intros Hall. destruct (groupFiles_accepts _ _ _ ∅ Hall) as [data Hdata].
      congruence. }
    unfold Run. rewrite Hrun. simpl. split_and!.
    + split; [done|]. by intros [? _].
    + intros [= ->]. apply groupFiles_inl in Hrun as (path & _ & Hpath).
      by eapply processFile_no_panic.
    + split; [done|]. by intros [? _].
    + by left.
  - pose proof (groupFiles_accepted _ _ _ _ _ Hrun) as Hall.
    assert (∃ page',
              Run dataIntervalUnit time_Parse w p =
                (if World.createOk w (Plot.Output p) then
                   (if World.renderOk w then None else Some RenderError,
                    [Created (Plot.Output p); Rendered (Plot.Output p) page'])
                 else (Some (CreateError (Plot.Output p)), [])) ∧
              Page.PageTitle page' = "Results" ∧
              Page.AssetsHost page' = Plot.Assets p) as (page' & -> & Ht & Ha).
    { destruct (renderGroups_total dataIntervalUnit (map_to_list data))
        as (plots & Hplots & _).
      { apply Forall_forall. intros [c ms] Hin%elem_of_map_to_list.
        by apply (groupFiles_reconciled _ _ _ _ Hrun c). }
      unfold Run, renderData. rewrite Hrun, Hplots.
      eexists. split; [done|]. done. }
    destruct (World.createOk w (Plot.Output p)), (World.renderOk w); simpl;
      split_and!; try done; try (split; [done|by intros (_ & ? & ?)]);
      try (split; [done|by intros (_ & ?)]); try by left.
    all: right; by exists page'.
Qed.

(** X11. The page [Run] renders holds the charts of the groups of runs, one
    group after the other in some order of the groups, and for each group
    its six charts in the fixed order of the metrics; each is the chart
    [renderPlot] gives for the group's configuration, the metric and the
    group's runs, so the page has six charts per group. The order of the
    groups is not fixed: whichever order the groups are visited in, the loop
    over them returns, and gives the charts of the groups in that order. *)
Theorem Run_page_charts
    (dataIntervalUnit : time.Duration)
    (time_Parse : string → string → option time.Time)
    (w : World.t) (p : Plot.t) (path : string) (page : Page.t) :
  Rendered path page ∈ (Run dataIntervalUnit time_Parse w p).2 →
  ∃ data,
    groupFiles time_Parse w (Plot.Files p) ∅ = inr data ∧
    (∃ groups chunks,
       groups ≡ₚ map_to_list data ∧
       Page.Charts page = concat chunks ∧
       Forall2 (groupCharts dataIntervalUnit) groups chunks) ∧
    length (Page.Charts page) = 6 * size data ∧
    (∀ groups,
       groups ≡ₚ map_to_list data →
       ∃ chunks,
         renderGroups dataIntervalUnit groups = inr (concat chunks) ∧
         Forall2 (groupCharts dataIntervalUnit) groups chunks).
Proof.
  unfold Run.
  destruct (groupFiles time_Parse w (Plot.Files p) ∅) as [e|data] eqn:Hrun;
    [by intros ?%elem_of_nil|].
  unfold renderData.
  destruct (renderGroups dataIntervalUnit (map_to_list data)) as [e|plots]
    eqn:Hplots; [by intros ?%elem_of_nil|].
  destruct (World.createOk w (Plot.Output p)); [|by intros ?%elem_of_nil].
  simpl. rewrite !elem_of_cons, elem_of_nil.
  intros [[=]|[[= _ ->]|[]]]. simpl.
  destruct (renderGroups_groupCharts _ _ _ Hplots)
    as (chunks & Hcat & Hall & Hlen).
  exists data. split_and!; [done| | |].
  - by exists (map_to_list data), chunks.
  - by rewrite Hlen, length_map_to_list.
  - intros groups Hperm.
    destruct (renderGroups_total dataIntervalUnit groups)
      as (plots' & Hplots' & _).
    { apply Forall_forall. intros [c ms] Hin. rewrite Hperm in Hin.
      apply elem_of_map_to_list in Hin.
      by apply (groupFiles_reconciled _ _ _ _ Hrun c). }
    destruct (renderGroups_groupCharts _ _ _ Hplots')
      as (chunks' & -> & Hall' & _).
    by exists chunks'.
Qed.

Lemma Run_page_charts_witness :
  ∃ page data,
    (Run Samples.second Samples.parse Samples.world
       (Samples.plot ["a.log"; "c.log"; "b.log"])).2
      = [Created "results.html"; Rendered "results.html" page] ∧
    groupFiles Samples.parse Samples.world ["a.log"; "c.log"; "b.log"] ∅
      = inr data ∧
    length (Page.Charts page) = 6 * size data.
Proof.
  destruct (Run_writes_page Samples.second Samples.parse Samples.world
              (Samples.plot ["a.log"; "c.log"; "b.log"]))
    as (data & page & Hdata & _ & HRun).
  { repeat constructor; eexists; vm_compute; reflexivity. }
  exists page, data. rewrite HRun. split; [reflexivity|]. split; [exact Hdata|].
  destruct (Run_page_charts Samples.second Samples.parse Samples.world
              (Samples.plot ["a.log"; "c.log"; "b.log"]) "results.html" page)
    as (data' & Hdata' & _ & Hlen & _).
  { rewrite HRun. simpl. apply elem_of_cons. right. apply elem_of_cons. by left. }
  pose proof (eq_trans (eq_sym Hdata) Hdata') as Hsame.
  injection Hsame as ->. exact Hlen.
Defined.

(** ** The series of a chart *)

(** X12. In the chart of a metric whose name contains rate every run of a
    file contributes exactly one series, in the order of the runs: a smooth
    line named after the engine over the run's points, without renderer or
    encoding of its own, and no error-bar series. *)
Theorem rate_chart_series
    (dataIntervalUnit : time.Duration) (config : plotConfig.t) (name : string)
    (allMeasurements : list plotMeasurements.t) :
  strings_Contains name "rate" = true →
  Forall reconciled allMeasurements →
  ∃ line,
    renderPlot dataIntervalUnit config name allMeasurements = inr line ∧
    Line.MultiSeries line =
      (λ m, SingleSeries.mk (plotMeasurements.Engine m) types.ChartLine
              (runPoints dataIntervalUnit name m) None None None true)
        <$> allMeasurements.
Proof.
  intros Hrate Hall.
  destruct (renderPlot_total dataIntervalUnit config name allMeasurements Hall)
    as (line & Hline & Hseries).
  exists line. split; [done|]. rewrite Hseries. clear Hline Hall Hseries.
  induction allMeasurements as [|m rest IH]; [done|].
  rewrite bind_cons, fmap_app, IH, fmap_cons. f_equal.
  unfold runSeries. by rewrite Hrate.
Qed.

Lemma rate_chart_series_witness :
  ∃ line,
    renderPlot Samples.second (plotConfig.mk 2 4 1024 false) "get rate"
      [Samples.aligned; Samples.aligned] = inr line ∧
    SingleSeries.Name <$> Line.MultiSeries line = ["X"; "X"].
Proof.
  destruct (rate_chart_series Samples.second (plotConfig.mk 2 4 1024 false)
              "get rate" [Samples.aligned; Samples.aligned])
    as (line & Hline & Hseries).
  - reflexivity.
  - repeat constructor; apply (bool_decide_unpack _); vm_compute; exact I.
  - exists line. split; [exact Hline|]. rewrite Hseries. reflexivity.
Defined.

(** What the series of any chart look like. *)
Lemma addAllSeries_shape (dataIntervalUnit : time.Duration) (name : string)
    (allMeasurements : list plotMeasurements.t) : ∀ series series',
  addAllSeries dataIntervalUnit name allMeasurements series = inr series' →
  ∃ added,
    series' = series ++ added ∧
    Forall (λ s, ∃ engine data,
                   s = SingleSeries.line engine data ∨
                   s = errorBarSeries engine data) added.
Proof.
  induction allMeasurements as [|m rest IH]; intros series series';
    cbn [addAllSeries].
  - intros [= <-]. exists []. by rewrite app_nil_r.
  - intros (data & _ & Hrest)%bind_inr.
    destruct (IH _ _ Hrest) as (added & -> & Hadded).
    destruct (negb (strings_Contains name "rate")).
    + exists (SingleSeries.line (plotMeasurements.Engine m) data
              :: errorBarSeries (plotMeasurements.Engine m) data :: added).
      split; [by rewrite <-!app_assoc|].
      repeat constructor; eauto.
    + exists (SingleSeries.line (plotMeasurements.Engine m) data :: added).
      split; [by rewrite <-!app_assoc|].
      repeat constructor; eauto.
Qed.

(** X13. One click on the toggle of a chart [renderPlot] returns switches
    every error-bar series off, in lock-step, and changes no line series;
    the next click gives back the chart as it was rendered. *)
Theorem toggleChart_lock_step
    (dataIntervalUnit : time.Duration) (config : plotConfig.t) (name : string)
    (allMeasurements : list plotMeasurements.t) (line : Line.t) :
  renderPlot dataIntervalUnit config name allMeasurements = inr line →
  Forall2 (λ s s',
             if bool_decide (SingleSeries.Type_ s = types.ChartCustom) then
               seriesHidden s = false ∧ seriesHidden s' = true ∧
               SingleSeries.Name s' = SingleSeries.Name s ∧
               SingleSeries.Data s' = SingleSeries.Data s
             else s' = s)
    (Line.MultiSeries line) (Line.MultiSeries (toggleChart line)) ∧
  toggleChart (toggleChart line) = line.
Proof.
  unfold renderPlot.
  assert (∀ series,
            Forall (λ s, ∃ engine data,
                           s = SingleSeries.line engine data ∨
                           s = errorBarSeries engine data) series →
            Forall2 (λ s s',
                       if bool_decide (SingleSeries.Type_ s = types.ChartCustom)
                       then
                         seriesHidden s = false ∧ seriesHidden s' = true ∧
                         SingleSeries.Name s' = SingleSeries.Name s ∧
                         SingleSeries.Data s' = SingleSeries.Data s
                       else s' = s)
              (SingleSeries.setSmooth true <$> series)
              (toggleSeries <$> (SingleSeries.setSmooth true <$> series)) ∧
            toggleSeries <$>
              (toggleSeries <$> (SingleSeries.setSmooth true <$> series)) =
            SingleSeries.setSmooth true <$> series) as Hshape.
  { induction 1 as [|s series (engine & data & [->| ->]) _ [IH1 IH2]];
      [by split; [constructor|]|..];
      (split; [by constructor|]); rewrite !fmap_cons, IH2; done. }
  destruct (strings_Contains name "rate");
    intros (series & Hseries & [= <-])%bind_inr;
    destruct (addAllSeries_shape _ _ _ _ _ Hseries) as (added & -> & Hadded);
    specialize (Hshape added Hadded); simpl in Hshape |- *;
    unfold toggleChart; simpl; (split; [tauto|]); f_equal; tauto.
Qed.

Lemma toggleChart_lock_step_witness :
  ∃ line,
    renderPlot Samples.second (plotConfig.mk 2 4 1024 false) "set"
      [Samples.aligned] = inr line ∧
    toggleChart (toggleChart line) = line.
Proof.
  destruct (renderPlot_total Samples.second (plotConfig.mk 2 4 1024 false)
              "set" [Samples.aligned]) as (line & Hline & _).
  { repeat constructor. apply (bool_decide_unpack _). vm_compute. exact I. }
  exists line. split; [exact Hline|].
  exact (proj2 (toggleChart_lock_step Samples.second
                  (plotConfig.mk 2 4 1024 false) "set" [Samples.aligned] line
                  Hline)).
Defined.

(** ** The groups as a partition of the runs *)

Section Partition.

Variable time_Parse : string → string → option time.Time.
Variable w : World.t.

Implicit Types (data : gmap plotConfig.t (list plotMeasurements.t)).

Lemma groupedRuns_insert data (m : plotMeasurements.t) :
  groupedRuns
    (<[plotMeasurements.Config m :=
         (data !!! plotMeasurements.Config m) ++ [m]]> data)
  ≡ₚ groupedRuns data ++ [m].
Proof.
  unfold groupedRuns. rewrite lookup_total_alt.
  destruct (data !! plotMeasurements.Config m) as [group|] eqn:Hgroup; simpl.
  - rewrite <-insert_delete_eq.
    rewrite map_to_list_insert by apply lookup_delete_eq.
    rewrite <-(map_to_list_delete data _ _ Hgroup).
    rewrite !bind_cons. simpl. by rewrite <-!app_assoc, (comm (++) [m]).
  - rewrite map_to_list_insert by done. rewrite bind_cons. simpl.
    by rewrite (comm (++)).
Qed.

Lemma groupFiles_groupedRuns (paths : list string) : ∀ data data',
  groupFiles time_Parse w paths data = inr data' →
  groupedRuns data' ≡ₚ groupedRuns data ++ fileRuns time_Parse w paths.
Proof.
  induction paths as [|path rest IH]; intros data data'; cbn [groupFiles].
  - intros [= <-]. by rewrite app_nil_r.
  - intros (m & Hm & Hrest)%bind_inr.
    rewrite (IH _ _ Hrest), groupedRuns_insert, (fileRuns_cons_inr _ _ _ _ _ Hm).
    by rewrite <-app_assoc.
Qed.

End Partition.

(** X14. The groups [Run] builds partition the runs of the files: put
    together they are the runs, none lost and none twice; no group is empty;
    and every run of a group has the group's key as configuration. *)
Theorem groupFiles_partition
    (time_Parse : string → string → option time.Time)
    (w : World.t) (paths : list string)
    (data : gmap plotConfig.t (list plotMeasurements.t)) :
  groupFiles time_Parse w paths ∅ = inr data →
  groupedRuns data ≡ₚ fileRuns time_Parse w paths ∧
  length (groupedRuns data) = length paths ∧
  map_Forall (λ c group,
                group ≠ [] ∧
                Forall (λ m, plotMeasurements.Config m = c) group) data.
Proof.
  intros Hrun.
  pose proof (groupFiles_groupedRuns _ _ _ _ _ Hrun) as Hperm.
  unfold groupedRuns at 2 in Hperm. rewrite map_to_list_empty in Hperm.
  simpl in Hperm. split_and!.
  - done.
  - rewrite Hperm. apply fileRuns_length. by eapply groupFiles_accepted.
  - intros c group Hgroup.
    pose proof (groupFiles_groups _ _ _ _ _ Hrun c) as Hc.
    rewrite lookup_total_alt, Hgroup, lookup_total_empty in Hc. simpl in Hc.
    split.
    + assert (c ∈ dom data) as Hdom by (apply elem_of_dom; eauto).
      apply (groupFiles_dom _ _ _ _ _ Hrun) in Hdom
        as [[]%elem_of_dom|(m & Hm & Hcm)];
        [by rewrite lookup_empty in *|].
      intros ->. symmetry in Hc. unfold runsOf in Hc.
      apply filter_nil_not_elem_of with (x := m) in Hc; done.
    + rewrite Hc. unfold runsOf. apply Forall_forall.
      by intros m [? _]%list_elem_of_filter.
Qed.

Lemma groupFiles_partition_witness :
  ∃ data,
    groupFiles Samples.parse Samples.world ["a.log"; "c.log"; "b.log"] ∅
      = inr data ∧
    length (groupedRuns data) = 3.
Proof.
  destruct (groupFiles_accepts Samples.parse Samples.world
              ["a.log"; "c.log"; "b.log"] ∅) as [data Hrun].
  { repeat constructor; eexists; vm_compute; reflexivity. }
  exists data. split; [exact Hrun|].
  exact (proj1 (proj2 (groupFiles_partition Samples.parse Samples.world
                         ["a.log"; "c.log"; "b.log"] data Hrun))).
Defined.

(** ** The Immudb engine *)

Section ImmudbLaws.

Import immudb.

Variable answer : list storeCall → storeCall → option storeError.
Variable resolved : list storeCall → list Byte.byte.

(** X15. [Put] closes the transaction it opens, on every path: when the
    store refuses the transaction, [Put] returns that error and makes no
    other call; otherwise it sets the key, commits only if the set
    succeeded, and its last call, made once, cancels the transaction. *)
Theorem Put_cancels_once (key value : list Byte.byte)
    (history : list storeCall) :
  let outcome := Put answer key value history in
  match answer history (DbNewTx ReadWriteTx) with
  | Some e =>
      outcome = ([e], history ++ [DbNewTx ReadWriteTx])
  | None =>
      let opened := history ++ [DbNewTx ReadWriteTx] in
      match answer opened (TxSet key value) with
      | Some _ => outcome.2 = opened ++ [TxSet key value; TxCancel]
      | None => outcome.2 = opened ++ [TxSet key value; TxCommit; TxCancel]
      end
  end.
Proof.
  cbv beta iota zeta delta
    [Put cancelDeferred call mbind onStore_bind mret onStore_ret].
  destruct (answer history (DbNewTx ReadWriteTx)); [done|].
  destruct (answer (history ++ [DbNewTx ReadWriteTx]) (TxSet key value));
    simpl; by rewrite <-!app_assoc.
Qed.

(** X16. On a store that refuses to cancel a committed transaction as
    already closed, [Put] returns nil exactly when the store opened the
    transaction, set the key and committed; the refusal of the deferred
    cancel is not reported. *)
Theorem Put_succeeds_iff (key value : list Byte.byte)
    (history : list storeCall) :
  (∀ h, answer h TxCommit = None →
        ∃ e, answer (h ++ [TxCommit]) TxCancel = Some e ∧
             isAlreadyClosed e = true) →
  (Put answer key value history).1 = [] ↔
  answer history (DbNewTx ReadWriteTx) = None ∧
  answer (history ++ [DbNewTx ReadWriteTx]) (TxSet key value) = None ∧
  answer ((history ++ [DbNewTx ReadWriteTx]) ++ [TxSet key value]) TxCommit
    = None.
Proof.
  intros Hclosed.
  cbv beta iota zeta delta
    [Put cancelDeferred call mbind onStore_bind mret onStore_ret].
  destruct (answer history (DbNewTx ReadWriteTx)) as [e|];
    [split; [done|by intros [[=] _]]|].
  destruct (answer (history ++ [DbNewTx ReadWriteTx]) (TxSet key value))
    as [e|]; [split; [done|by intros (_ & [=] & _)]|].
  destruct (answer ((history ++ [DbNewTx ReadWriteTx]) ++ [TxSet key value])
              TxCommit) as [e|] eqn:Hcommit;
    [split; [done|by intros (_ & _ & [=])]|].
  destruct (Hclosed _ Hcommit) as (e & -> & ->). done.
Qed.

(** X17. [Get] leaves its transaction open exactly when it returns a reader:
    then it made the three calls that open the transaction, get the key and
    resolve the value, and the function it hands to the reader cancels the
    transaction, once, when called. Whenever [Get] fails after the
    transaction was opened, its last call cancelled the transaction. *)
Theorem Get_holds_or_cancels (key : list Byte.byte)
    (history : list storeCall) :
  match Get answer resolved key history with
  | (inr (newReadSeekCloser value close), after) =>
      after = history ++ [DbNewTx ReadOnlyTx; TxGet key; RefResolve] ∧
      value = resolved (history ++ [DbNewTx ReadOnlyTx; TxGet key]) ∧
      ∀ h, close h = (WithStack (answer h TxCancel), h ++ [TxCancel])
  | (inl errE, after) =>
      errE ≠ [] ∧
      (after = history ++ [DbNewTx ReadOnlyTx] ∧
       answer history (DbNewTx ReadOnlyTx) = head errE ∨
       after = history ++ [DbNewTx ReadOnlyTx; TxGet key; TxCancel] ∨
       after = history ++ [DbNewTx ReadOnlyTx; TxGet key; RefResolve; TxCancel])
  end.
Proof.
  cbv beta iota zeta delta
    [Get resolve cancelOnClose call mbind onStore_bind mret onStore_ret].
  destruct (answer history (DbNewTx ReadOnlyTx)) as [e|] eqn:Hnew;
    [split; [done|by left]|].
  destruct (answer (history ++ [DbNewTx ReadOnlyTx]) (TxGet key)) as [e|].
  { split; [done|]. right. left. by rewrite <-!app_assoc. }
  destruct (answer ((history ++ [DbNewTx ReadOnlyTx]) ++ [TxGet key])
              RefResolve) as [e|].
  { split; [done|]. right. right. by rewrite <-!app_assoc. }
  rewrite <-!app_assoc. by split_and!.
Qed.

End ImmudbLaws.

Lemma Put_succeeds_iff_witness :
  (immudb.Put immudb.sampleAnswer [Byte.x6b] [Byte.x76] []).1 = [].
Proof.
  apply (Put_succeeds_iff immudb.sampleAnswer [Byte.x6b] [Byte.x76] []).
  - intros h _. exists immudb.ErrAlreadyClosed. split; [|reflexivity].
    unfold immudb.sampleAnswer. by rewrite last_snoc.
  - split_and!; reflexivity.
Defined.

(** ** No input *)

(** X18. Without input file [Run] still goes on to the output file: it
    creates it and renders a page without chart, and fails only if the
    output file does. *)
Theorem Run_without_files
    (dataIntervalUnit : time.Duration)
    (time_Parse : string → string → option time.Time)
    (w : World.t) (p : Plot.t) :
  Plot.Files p = [] →
  Run dataIntervalUnit time_Parse w p =
    if World.createOk w (Plot.Output p) then
      (if World.renderOk w then None else Some RenderError,
       [Created (Plot.Output p);
        Rendered (Plot.Output p)
          (Page.mk "flex" "Results" (Plot.Assets p) [])])
    else (Some (CreateError (Plot.Output p)), []).
Proof.
  intros Hfiles. unfold Run, renderData. rewrite Hfiles. simpl.
  by rewrite map_to_list_empty.
Qed.

Lemma Run_without_files_witness :
  Run Samples.second Samples.parse Samples.world (Samples.plot [])
  = (None,
     [Created "results.html";
      Rendered "results.html"
        (Page.mk "flex" "Results"
           "https://go-echarts.github.io/go-echarts-assets/assets/" [])]).
Proof.
  exact (Run_without_files Samples.second Samples.parse Samples.world
           (Samples.plot []) eq_refl).
Defined.
